(** * Reconciliation engine of the indexer agent

    A shallow embedding of [packages/indexer-agent/src/agent.ts] (the
    [Agent] class with [start] and [resolve]) and the properties of its
    reconciliation plan, of its startup sequence and of its tick loop.

    JavaScript numbers that the agent handles are epoch and block numbers
    obtained through [toNumber()]; they are integers, embedded as [Z].
    [BigNumber] amounts are embedded as [Z] as well. *)

From Stdlib Require Import ZArith List String Bool Lia.
Import ListNotations.
Open Scope string_scope.
Open Scope Z_scope.

(** ** JavaScript array and string primitives used by the agent *)

Module Js.

Section Arrays.
Context {A : Type}.

(** [Array.prototype.findIndex]: index of the first element satisfying
    the callback, [-1] when there is none. *)
Fixpoint findIndex_from (p : A -> bool) (i : Z) (l : list A) : Z :=
  match l with
  | [] => -1
  | x :: r => if p x then i else findIndex_from p (i + 1) r
  end.

Definition findIndex (p : A -> bool) (l : list A) : Z :=
  findIndex_from p 0 l.

(** [Array.prototype.filter] with the three-argument callback
    [(value, index, array)]. *)
Fixpoint filter_from (f : A -> Z -> list A -> bool) (array : list A)
         (i : Z) (l : list A) : list A :=
  match l with
  | [] => []
  | x :: r =>
      if f x i array
      then x :: filter_from f array (i + 1) r
      else filter_from f array (i + 1) r
  end.

Definition filter3 (f : A -> Z -> list A -> bool) (l : list A) : list A :=
  filter_from f l 0 l.

(** [!array.find(p)]: the elements are objects, hence truthy, so the
    negation is true exactly when [find] returns [undefined]. *)
Definition not_found (p : A -> bool) (l : list A) : bool :=
  match find p l with
  | Some _ => false
  | None => true
  end.

(** [array.push(x)] *)
Definition push (l : list A) (x : A) : list A := l ++ [x].

End Arrays.

(** [String.prototype.slice(start, end)]; a negative index counts from the
    end of the string, and both indices are clamped to the string. *)
Definition clamp (len i : Z) : Z :=
  if i <? 0 then Z.max (len + i) 0 else Z.min i len.

Definition slice (s : string) (b : Z) (e : option Z) : string :=
  let len := Z.of_nat (String.length s) in
  let from := clamp len b in
  let upto := match e with Some e => clamp len e | None => len end in
  substring (Z.to_nat from) (Z.to_nat (upto - from)) s.

End Js.

(** ** Data model *)

(** [SubgraphDeploymentID] of common-ts, through the two getters the agent
    reads: the canonical [bytes32] form, compared with [===] and printed by
    [toString], and the [ipfsHash] rendering. *)
Record SubgraphDeploymentID : Type := mkDeployment {
  bytes32 : string;
  ipfsHash : string
}.

(** Modelled from the spec: the [Allocation] type of [./types], which is not
    among the sources. An allocation has an identifier, the deployment it
    backs together with that deployment's market info (signal amount and
    staked tokens), and the epoch it was created at; the field names are the
    ones [resolve] reads. *)
Record SubgraphDeployment : Type := mkSubgraphDeployment {
  id : SubgraphDeploymentID;
  signalAmount : Z;
  stakedTokens : Z
}.

Record Allocation : Type := mkAllocation {
  alloc_id : string;
  subgraphDeployment : SubgraphDeployment;
  createdAtEpoch : Z
}.

(** [parseGRT]: a whole number of GRT in its 18-decimals base unit. *)
Definition parseGRT (grt : Z) : Z := grt * 10 ^ 18.

Definition MINIMUM_STAKE : Z := parseGRT 10000000.
Definition MINIMUM_SIGNAL : Z := parseGRT 10000000.

(** The four lists [resolve] computes before it acts on them. *)
Record Plan : Type := mkPlan {
  toDeploy : list SubgraphDeploymentID;
  toRemove : list SubgraphDeploymentID;
  toAllocate : list SubgraphDeploymentID;
  toSettle : list Allocation
}.

(** ** The plan computation of [Agent.resolve] *)

(** [a.bytes32 === b.bytes32] *)
Definition same_bytes32 (a b : SubgraphDeploymentID) : bool :=
  String.eqb (bytes32 a) (bytes32 b).

(** [a.id === b.id] on allocations *)
Definition same_id (a b : Allocation) : bool :=
  String.eqb (alloc_id a) (alloc_id b).

Definition uniqueDeploymentsOnly (value : SubgraphDeploymentID) (index : Z)
           (array : list SubgraphDeploymentID) : bool :=
  Js.findIndex (fun v => same_bytes32 value v) array =? index.

Definition uniqueAllocationsOnly (value : Allocation) (index : Z)
           (array : list Allocation) : bool :=
  Js.findIndex (fun v => same_id value v) array =? index.

Definition settleAllocationsBeforeEpoch (epoch maxEpochsPerAllocation : Z) : Z :=
  epoch - Z.max 1 maxEpochsPerAllocation + 1.

(** The callback of [allocations.filter] that selects what to settle. *)
Definition shouldSettle (epoch maxEpochsPerAllocation : Z)
           (allocation : Allocation) : bool :=
  (createdAtEpoch allocation
     <? settleAllocationsBeforeEpoch epoch maxEpochsPerAllocation)
  || ((signalAmount (subgraphDeployment allocation) <? MINIMUM_SIGNAL)
      && (stakedTokens (subgraphDeployment allocation) <? MINIMUM_STAKE)).

Section ResolvePlan.
Variable networkSubgraphDeployment : SubgraphDeploymentID.

Definition resolve_plan (epoch maxEpochsPerAllocation : Z)
           (networkDeployments indexerDeployments : list SubgraphDeploymentID)
           (allocations : list Allocation) : Plan :=
  let toDeploy :=
    filter (fun networkDeployment =>
              Js.not_found (fun indexerDeployment =>
                              same_bytes32 networkDeployment indexerDeployment)
                           indexerDeployments)
           networkDeployments in
  let toRemove :=
    filter (fun indexerDeployment =>
              Js.not_found (fun networkDeployment =>
                              same_bytes32 indexerDeployment networkDeployment)
                           networkDeployments)
           indexerDeployments in
  let toSettle :=
    filter (shouldSettle epoch maxEpochsPerAllocation) allocations in
  let toAllocate :=
    filter (fun networkDeployment =>
              Js.not_found (fun allocation =>
                              same_bytes32 (id (subgraphDeployment allocation))
                                           networkDeployment)
                           allocations)
           networkDeployments in
  let toDeploy := Js.filter3 uniqueDeploymentsOnly toDeploy in
  let toRemove := Js.filter3 uniqueDeploymentsOnly toRemove in
  let toAllocate := Js.filter3 uniqueDeploymentsOnly toAllocate in
  let toSettle := Js.filter3 uniqueAllocationsOnly toSettle in
  let toDeploy :=
    if Js.not_found (fun deployment =>
                       same_bytes32 deployment networkSubgraphDeployment)
                    toDeploy
    then Js.push toDeploy networkSubgraphDeployment
    else toDeploy in
  let toAllocate :=
    filter (fun deployment =>
              negb (same_bytes32 deployment networkSubgraphDeployment))
           toAllocate in
  mkPlan toDeploy toRemove toAllocate toSettle.

End ResolvePlan.

(** Membership of a deployment in a list under [bytes32] equality, and
    whether some allocation of a list backs a deployment. *)
Definition has_deployment (d : SubgraphDeploymentID)
           (l : list SubgraphDeploymentID) : bool :=
  existsb (same_bytes32 d) l.

Definition allocated_to (d : SubgraphDeploymentID) (l : list Allocation) : bool :=
  existsb (fun a => same_bytes32 (id (subgraphDeployment a)) d) l.

(** Membership of an allocation in a list under allocation-id equality. *)
Definition has_allocation (a : Allocation) (l : list Allocation) : bool :=
  existsb (same_id a) l.

(** Entries of an allocation list that carry the same id are the same
    allocation. *)
Definition ids_identify (l : list Allocation) : Prop :=
  forall a b, In a l -> In b l -> alloc_id a = alloc_id b -> a = b.

(** ** Effects: errors, the logger, and the collaborators *)

(** A thrown [Error] object; the agent only ever reads its [message]. *)
Record JsError : Type := mkError { message : string }.

Inductive Result (A : Type) : Type :=
| Ok (a : A)
| Throw (e : JsError).
Arguments Ok {A} a.
Arguments Throw {A} e.

(** Modelled from the spec: the [IndexingStatus] type of [./types], which is
    not among the sources: health, synced flag, an optional fatal error and
    the chains with their latest and chain-head blocks. *)
Record BlockPointer : Type := mkBlock { number : Z }.

Record ChainIndexingStatus : Type := mkChain {
  latestBlock : BlockPointer;
  chainHeadBlock : BlockPointer
}.

Record IndexingError : Type := mkIndexingError { fatal_message : string }.

Record IndexingStatus : Type := mkStatus {
  health : string;
  synced : bool;
  fatalError : option IndexingError;
  chains : list ChainIndexingStatus
}.

(** What the logger receives: a level, the message and the structured
    metadata object. *)
Inductive Level : Type := Info | Warn.

Inductive Meta : Type :=
| NoMeta
| ErrorMeta (error : string)
| EpochMeta (epoch : Z)
| SyncResultMeta (epoch maxEpochsPerAllocation : Z)
                 (worthIndexing alreadyIndexing : list SubgraphDeploymentID)
                 (alreadyAllocated : list (string * SubgraphDeploymentID * Z))
| ChangesMeta (deploy remove allocate : list SubgraphDeploymentID)
              (settle : list string)
| IndexingMeta (name : string) (deployment : SubgraphDeploymentID)
| ProgressMeta (latestBlock chainHeadBlock : Z).

Record LogEntry : Type := mkLog {
  level : Level;
  text : string;
  meta : Meta
}.

(** The calls the agent makes on its two collaborators, in the order it
    issues them. *)
Inductive Call : Type :=
| CConnect
| CSubgraphDeployments
| CIndexingStatus (d : SubgraphDeploymentID)
| CIndexerRules (merged : bool)
| CEnsure (name : string) (d : SubgraphDeploymentID)
| CRemove (d : SubgraphDeploymentID)
| CRegister
| CEnsureMinimumStake (amount : Z)
| CWorthIndexing
| CActiveAllocations
| CAllocate (d : SubgraphDeploymentID)
| CSettle (a : Allocation)
| CCurrentEpoch
| CMaxAllocationEpochs.

(** The [Indexer] and [Network] classes are imported by [agent.ts] and are
    not among the sources: each method is an arbitrary transformer of the
    outside world [Env] that returns or throws. *)
Class Indexer (Env Rules : Type) : Type := {
  connect : Env -> Result unit * Env;
  subgraphDeployments : Env -> Result (list SubgraphDeploymentID) * Env;
  indexingStatus : SubgraphDeploymentID -> Env -> Result IndexingStatus * Env;
  indexerRules : bool -> Env -> Result Rules * Env;
  ensure : string -> SubgraphDeploymentID -> Env -> Result unit * Env;
  remove : SubgraphDeploymentID -> Env -> Result unit * Env
}.

Class Network (Env Rules : Type) : Type := {
  register : Env -> Result unit * Env;
  ensureMinimumStake : Z -> Env -> Result unit * Env;
  subgraphDeploymentsWorthIndexing :
    Rules -> Env -> Result (list SubgraphDeploymentID) * Env;
  activeAllocations : Env -> Result (list Allocation) * Env;
  allocate : SubgraphDeploymentID -> Env -> Result unit * Env;
  settle : Allocation -> Env -> Result unit * Env;
  currentEpoch : Env -> Result Z * Env;
  maxAllocationEpochs : Env -> Result Z * Env
}.

(** The state an execution of the agent threads: the log written so far,
    the collaborator calls issued so far, the promise rejections nobody
    handled, and the outside world. *)
Record World (Env : Type) : Type := mkWorld {
  log : list LogEntry;
  calls : list Call;
  unhandled : list JsError;
  env : Env
}.
Arguments mkWorld {Env} log calls unhandled env.
Arguments log {Env} _.
Arguments calls {Env} _.
Arguments unhandled {Env} _.
Arguments env {Env} _.

(** The outcome of a [while (true)] loop run for a bounded number of
    iterations: left through [break], left through an exception, or still
    running. *)
Inductive LoopResult : Type :=
| Broke
| Raised (e : JsError)
| Running.

Section Monad.
Context {Env : Type}.

(** An [async] computation: state passing with exceptions. *)
Definition M (A : Type) : Type := World Env -> Result A * World Env.

Definition ret {A} (a : A) : M A := fun w => (Ok a, w).

Definition bind {A B} (m : M A) (k : A -> M B) : M B :=
  fun w =>
    match m w with
    | (Ok a, w') => k a w'
    | (Throw e, w') => (Throw e, w')
    end.

Definition throw {A} (e : JsError) : M A := fun w => (Throw e, w).

(** [try { body } catch (error) { handler }] *)
Definition try_catch {A} (body : M A) (handler : JsError -> M A) : M A :=
  fun w =>
    match body w with
    | (Ok a, w') => (Ok a, w')
    | (Throw e, w') => handler e w'
    end.

(** [this.logger.info(...)] and [this.logger.warn(...)] *)
Definition logger (lvl : Level) (msg : string) (m : Meta) : M unit :=
  fun w => (Ok tt, mkWorld (log w ++ [mkLog lvl msg m]) (calls w)
                           (unhandled w) (env w)).

(** An awaited call of a collaborator method. *)
Definition call {A} (c : Call) (f : Env -> Result A * Env) : M A :=
  fun w =>
    let (r, e') := f (env w) in
    (r, mkWorld (log w) (calls w ++ [c]) (unhandled w) e').

(** A promise that is created and never awaited nor given a handler: the
    computation runs, and its rejection, if any, is left unhandled. *)
Definition floating {A} (m : M A) : M unit :=
  fun w =>
    match m w with
    | (Ok _, w') => (Ok tt, w')
    | (Throw e, w') =>
        (Ok tt, mkWorld (log w') (calls w') (unhandled w' ++ [e]) (env w'))
    end.

(** [await delay(ms)]: time is not modelled. *)
Definition delay (ms : Z) : M unit := ret tt.

(** [for (const x of l) { await f(x) }] *)
Fixpoint for_each {A} (l : list A) (f : A -> M unit) : M unit :=
  match l with
  | [] => ret tt
  | x :: r => bind (f x) (fun _ => for_each r f)
  end.

(** The [loop] helper of [agent.ts], run for at most [fuel] iterations. *)
Fixpoint loop (fuel : nat) (f : M bool) (interval : Z) (w : World Env)
  : LoopResult * World Env :=
  match fuel with
  | O => (Running, w)
  | S n =>
      match f w with
      | (Throw e, w') => (Raised e, w')
      | (Ok false, w') => (Broke, w')
      | (Ok true, w') => loop n f interval (snd (delay interval w'))
      end
  end.

End Monad.

Declare Scope agent_scope.
Delimit Scope agent_scope with agent.
Notation "x <- m ;; k" := (bind m (fun x => k))
  (at level 100, m at next level, right associativity) : agent_scope.
Notation "m ;; k" := (bind m (fun _ => k))
  (at level 100, right associativity) : agent_scope.

(** ** The p-queue library, as the agent uses it

    [add] enqueues a task and drops the promise it returns; the queue
    starts tasks in submission order and a task that rejects only rejects
    the promise [add] returned, after which the queue goes on with the next
    one; [onIdle] resolves once every task has finished. The tasks of one
    tick are run here to completion in the order the queue starts them;
    how their suspensions interleave under the concurrency bound is not
    modelled. *)
Module PQueue.

Record t (Env : Type) : Type := mk {
  concurrency : Z;
  tasks : list (M (Env := Env) unit)
}.
Arguments mk {Env} concurrency tasks.
Arguments concurrency {Env} _.
Arguments tasks {Env} _.

Definition new {Env} (concurrency : Z) : t Env := mk concurrency [].

Definition add {Env} (q : t Env) (task : M unit) : t Env :=
  mk (concurrency q) (tasks q ++ [task]).

Definition onIdle {Env} (q : t Env) : M unit :=
  for_each (tasks q) floating.

End PQueue.

(** ** The agent *)

(** The name under which [resolve] deploys a deployment:
    [`indexer-agent/${deployment.ipfsHash.slice(-10)}`]. *)
Definition deployment_name (deployment : SubgraphDeploymentID) : string :=
  "indexer-agent/" ++ Js.slice (ipfsHash deployment) (-10) None.

Section Agent.
Context {Env Rules : Type} {indexer : Indexer Env Rules}
        {network : Network Env Rules}.
Variable networkSubgraphDeployment : SubgraphDeploymentID.
Local Open Scope agent_scope.

(** The task [resolve] queues for a deployment to index: the call of
    [indexer.ensure] is not awaited, the task only sleeps after it. *)
Definition deploy_task (deployment : SubgraphDeploymentID) : M unit :=
  let name := deployment_name deployment in
  logger Info "Begin indexing subgraph deployment"
         (IndexingMeta name deployment);;
  floating (call (CEnsure name deployment) (ensure name deployment));;
  delay 2000.

(** The task [resolve] queues for a deployment to stop indexing. *)
Definition remove_task (deployment : SubgraphDeploymentID) : M unit :=
  call (CRemove deployment) (remove deployment).

(** The queue of one tick, filled by the two [for] loops of [resolve]. *)
Definition fill_queue (plan : Plan) : PQueue.t Env :=
  let queue := PQueue.new 10 in
  let queue :=
    fold_left (fun q deployment => PQueue.add q (deploy_task deployment))
              (toDeploy plan) queue in
  fold_left (fun q deployment => PQueue.add q (remove_task deployment))
            (toRemove plan) queue.

(** What [resolve] does with the lists it computed. *)
Definition execute_plan (plan : Plan) : M unit :=
  for_each (toSettle plan)
           (fun allocation => call (CSettle allocation) (settle allocation));;
  for_each (toAllocate plan)
           (fun deployment => call (CAllocate deployment) (allocate deployment));;
  PQueue.onIdle (fill_queue plan).

Definition resolve (epoch maxEpochsPerAllocation : Z)
           (networkDeployments indexerDeployments : list SubgraphDeploymentID)
           (allocations : list Allocation) : M unit :=
  logger Info "Synchronization result"
         (SyncResultMeta epoch maxEpochsPerAllocation
            networkDeployments indexerDeployments
            (map (fun a => (alloc_id a, id (subgraphDeployment a),
                            createdAtEpoch a)) allocations));;
  logger Info "Settle all allocations before epoch"
         (EpochMeta (settleAllocationsBeforeEpoch epoch maxEpochsPerAllocation));;
  let plan := resolve_plan networkSubgraphDeployment epoch
                maxEpochsPerAllocation networkDeployments indexerDeployments
                allocations in
  logger Info "Apply changes"
         (ChangesMeta (toDeploy plan) (toRemove plan) (toAllocate plan)
            (map (fun a => alloc_id a ++ " (deployment: "
                             ++ bytes32 (id (subgraphDeployment a)) ++ ")")
                 (toSettle plan)));;
  execute_plan plan.

(** The body of the [try] block of a steady-state tick. *)
Definition tick_body : M unit :=
  logger Info "Synchronizing subgraphs" NoMeta;;
  epoch <- call CCurrentEpoch currentEpoch;;
  maxEpochsPerAllocation <- call CMaxAllocationEpochs maxAllocationEpochs;;
  indexerDeployments <- call CSubgraphDeployments subgraphDeployments;;
  rules <- call (CIndexerRules true) (indexerRules true);;
  networkSubgraphs <- call CWorthIndexing (subgraphDeploymentsWorthIndexing rules);;
  allocations <- call CActiveAllocations activeAllocations;;
  let networkSubgraphs := Js.push networkSubgraphs networkSubgraphDeployment in
  resolve epoch maxEpochsPerAllocation networkSubgraphs indexerDeployments
          allocations.

(** The callback of the second [loop] of [start]: one tick. *)
Definition tick : M bool :=
  try_catch tick_body
    (fun error =>
       logger Warn "Synchronization loop failed:" (ErrorMeta (message error)));;
  ret true.

(** The callback of the first [loop] of [start]: one poll of the indexing
    status of the network subgraph deployment. The percentage the source
    prints in the progress line is a floating-point rendering of the two
    block numbers; the log entry keeps the two numbers. *)
Definition waitingForSync : M bool :=
  logger Info "Waiting for network subgraph deployment to be synced" NoMeta;;
  status <- call (CIndexingStatus networkSubgraphDeployment)
                 (indexingStatus networkSubgraphDeployment);;
  (if negb (String.eqb (health status) "healthy")
   then
     match fatalError status with
     | Some fatal =>
         throw (mkError ("Failed to index network subgraph deployment '"
                           ++ bytes32 networkSubgraphDeployment ++ "': "
                           ++ fatal_message fatal))
     | None => throw (mkError "Cannot read property 'message' of undefined")
     end
   else ret tt);;
  if synced status
  then ret false
  else
    match chains status with
    | [] => throw (mkError "Cannot read property 'latestBlock' of undefined")
    | chain :: _ =>
        logger Info "Network subgraph is synced"
               (ProgressMeta (number (latestBlock chain))
                             (number (chainHeadBlock chain)));;
        ret true
    end.

(** [start] up to the first loop. *)
Definition start_setup : M unit :=
  logger Info "Connect to graph node(s)" NoMeta;;
  call CConnect connect;;
  logger Info "Register indexer and stake on the network" NoMeta;;
  call CRegister register;;
  call (CEnsureMinimumStake (parseGRT 1000)) (ensureMinimumStake (parseGRT 1000));;
  logger Info "Indexer active and registered on network" NoMeta;;
  let name := Js.slice (ipfsHash networkSubgraphDeployment) 0 (Some 23)
              ++ "/" ++ Js.slice (ipfsHash networkSubgraphDeployment) 23 None in
  call (CEnsure name networkSubgraphDeployment)
       (ensure name networkSubgraphDeployment).

Definition start (fuel : nat) (w : World Env) : LoopResult * World Env :=
  match start_setup w with
  | (Throw e, w1) => (Raised e, w1)
  | (Ok _, w1) =>
      match loop fuel waitingForSync 5000 w1 with
      | (Broke, w2) =>
          let ready :=
            logger Info "Network subgraph deployment is synced" NoMeta;;
            logger Info "Periodically synchronizing subgraphs" NoMeta in
          loop fuel tick 5000 (snd (ready w2))
      | stopped => stopped
      end
  end.

End Agent.

(** ** Observations on a run *)


(** No call of a list removes the deployment [d] (under [bytes32]
    equality). *)
Definition never_removes (d : SubgraphDeploymentID) (c : Call) : Prop :=
  match c with
  | CRemove d' => bytes32 d' <> bytes32 d
  | _ => True
  end.



(** The log entry of a queued deploy task. *)
Definition begin_indexing (d : SubgraphDeploymentID) : LogEntry :=
  mkLog Info "Begin indexing subgraph deployment"
        (IndexingMeta (deployment_name d) d).

(** A log entry carries the message of an error. *)
Definition carries (e : JsError) (entry : LogEntry) : Prop :=
  meta entry = ErrorMeta (message e).

(** ** A scripted environment, for running the agent on concrete inputs *)

Module Mock.

Record State : Type := mkState {
  status : IndexingStatus;
  indexed : list SubgraphDeploymentID;
  worth : list SubgraphDeploymentID;
  active : list Allocation;
  epoch : Z;
  maxEpochs : Z
}.

Definition with_indexed (s : State) (l : list SubgraphDeploymentID) : State :=
  mkState (status s) l (worth s) (active s) (epoch s) (maxEpochs s).

Definition with_active (s : State) (l : list Allocation) : State :=
  mkState (status s) (indexed s) (worth s) l (epoch s) (maxEpochs s).

(** An indexing node that refuses to remove the deployments of [refused]. *)
Definition indexer (refused : list SubgraphDeploymentID) : Indexer State unit := {|
  connect := fun s => (Ok tt, s);
  subgraphDeployments := fun s => (Ok (indexed s), s);
  indexingStatus := fun _ s => (Ok (status s), s);
  indexerRules := fun _ s => (Ok tt, s);
  ensure := fun _ d s =>
    (Ok tt, if has_deployment d (indexed s) then s
            else with_indexed s (indexed s ++ [d]));
  remove := fun d s =>
    if has_deployment d refused
    then (Throw (mkError "removal refused"), s)
    else (Ok tt, with_indexed s
                   (filter (fun x => negb (same_bytes32 d x)) (indexed s)))
|}.

Definition network : Network State unit := {|
  register := fun s => (Ok tt, s);
  ensureMinimumStake := fun _ s => (Ok tt, s);
  subgraphDeploymentsWorthIndexing := fun _ s => (Ok (worth s), s);
  activeAllocations := fun s => (Ok (active s), s);
  allocate := fun _ s => (Ok tt, s);
  settle := fun a s =>
    (Ok tt, with_active s (filter (fun x => negb (same_id a x)) (active s)));
  currentEpoch := fun s => (Ok (epoch s), s);
  maxAllocationEpochs := fun s => (Ok (maxEpochs s), s)
|}.

(** A network client that cannot reach the chain. *)
Definition offline_network : Network State unit := {|
  register := fun s => (Ok tt, s);
  ensureMinimumStake := fun _ s => (Ok tt, s);
  subgraphDeploymentsWorthIndexing := fun _ s => (Ok (worth s), s);
  activeAllocations := fun s => (Ok (active s), s);
  allocate := fun _ s => (Ok tt, s);
  settle := fun _ s => (Ok tt, s);
  currentEpoch := fun s => (Throw (mkError "could not detect network"), s);
  maxAllocationEpochs := fun s => (Ok (maxEpochs s), s)
|}.

(** A network client whose settlement transactions revert. *)
Definition reverting_network : Network State unit := {|
  register := fun s => (Ok tt, s);
  ensureMinimumStake := fun _ s => (Ok tt, s);
  subgraphDeploymentsWorthIndexing := fun _ s => (Ok (worth s), s);
  activeAllocations := fun s => (Ok (active s), s);
  allocate := fun _ s => (Ok tt, s);
  settle := fun _ s => (Throw (mkError "transaction reverted"), s);
  currentEpoch := fun s => (Ok (epoch s), s);
  maxAllocationEpochs := fun s => (Ok (maxEpochs s), s)
|}.

Definition SELF : SubgraphDeploymentID :=
  mkDeployment "0x5e1f" "QmNetworkSubgraphDeploymentHashSelf".

Definition X : SubgraphDeploymentID :=
  mkDeployment "0x00a1" "QmSomeOtherSubgraphDeploymentHashX".

Definition Y : SubgraphDeploymentID :=
  mkDeployment "0x00b2" "QmYetAnotherSubgraphDeploymentHashY".

Definition synced_status : IndexingStatus :=
  mkStatus "healthy" true None [mkChain (mkBlock 10) (mkBlock 10)].


Definition failed_status : IndexingStatus :=
  mkStatus "failed" false (Some (mkIndexingError "X")) [].

(** Healthy, not synced, and no chain reported. *)
Definition chainless_status : IndexingStatus :=
  mkStatus "healthy" false None [].

Definition state_with (st : IndexingStatus) : State :=
  mkState st [X; SELF] [] [] 100 28.

Definition start_world (s : State) : World State := mkWorld [] [] [] s.

(** Two entries with the same allocation id and different market info,
    both created before the settlement threshold of epoch 100. *)
Definition old_a : Allocation :=
  mkAllocation "0xa110c" (mkSubgraphDeployment X (parseGRT 20000000) 0) 50.

Definition old_b : Allocation :=
  mkAllocation "0xa110c" (mkSubgraphDeployment X (parseGRT 30000000) 0) 50.

(** A third entry with that id, recent and on a deployment above both
    thresholds. *)
Definition recent_twin : Allocation :=
  mkAllocation "0xa110c"
    (mkSubgraphDeployment X (parseGRT 30000000) (parseGRT 30000000)) 99.

(** A recent allocation on a deployment with signal and stake above the
    thresholds, and a recent one on a deployment below both. *)
Definition young : Allocation :=
  mkAllocation "0xc0ffee"
    (mkSubgraphDeployment Y (parseGRT 20000000) (parseGRT 20000000)) 99.

Definition worthless : Allocation :=
  mkAllocation "0xdead" (mkSubgraphDeployment Y 5 7) 99.

(** The indexing node indexes [X] and the network subgraph deployment, the
    network only wants the latter, and the node refuses to remove [X]. *)
Definition stuck_plan : Plan :=
  resolve_plan SELF 100 28 [SELF] [X; SELF] [].

Definition refusal : JsError := mkError "removal refused".

(** The node indexes [Y] and the network subgraph deployment; the network
    wants [X], on which an old allocation is still open. *)
Definition busy_state : State :=
  mkState synced_status [Y; SELF] [X] [old_a] 100 28.

End Mock.

(** ** Keeping the first entry of every key

    What [filter] computes with [uniqueDeploymentsOnly] or
    [uniqueAllocationsOnly] as its callback, written as a recursion along
    the array: an entry is kept unless an entry before it has its key. *)

Section FirstOccurrences.
Context {A : Type}.
Variable key : A -> string.

Definition unique_by (value : A) (index : Z) (array : list A) : bool :=
  Js.findIndex (fun v => String.eqb (key value) (key v)) array =? index.

Fixpoint keep_first (seen l : list A) : list A :=
  match l with
  | [] => []
  | x :: r =>
      if existsb (fun v => String.eqb (key x) (key v)) seen
      then keep_first (seen ++ [x]) r
      else x :: keep_first (seen ++ [x]) r
  end.

End FirstOccurrences.

(** ** Statements about the plan, as predicates of the inputs *)

(** The two settlement triggers of an allocation. *)
Definition too_old (epoch maxEpochsPerAllocation : Z) (a : Allocation) : Prop :=
  createdAtEpoch a < settleAllocationsBeforeEpoch epoch maxEpochsPerAllocation.

Definition not_worth_it (a : Allocation) : Prop :=
  signalAmount (subgraphDeployment a) < MINIMUM_SIGNAL
  /\ stakedTokens (subgraphDeployment a) < MINIMUM_STAKE.

(** On the given inputs, the entries of the allocation list that end up in
    [toSettle] are exactly the ones a trigger fires for. *)
Definition settles_exactly_the_triggered
           (self : SubgraphDeploymentID) (epoch maxEpochsPerAllocation : Z)
           (N L : list SubgraphDeploymentID) (allocations : list Allocation)
  : Prop :=
  forall a,
    In a allocations ->
    (In a (toSettle (resolve_plan self epoch maxEpochsPerAllocation N L
                                  allocations))
     <-> too_old epoch maxEpochsPerAllocation a \/ not_worth_it a).

(** The same with membership in [toSettle] taken under allocation-id
    equality. *)
Definition settles_exactly_the_triggered_ids
           (self : SubgraphDeploymentID) (epoch maxEpochsPerAllocation : Z)
           (N L : list SubgraphDeploymentID) (allocations : list Allocation)
  : Prop :=
  forall a,
    In a allocations ->
    (has_allocation a
       (toSettle (resolve_plan self epoch maxEpochsPerAllocation N L
                               allocations)) = true
     <-> too_old epoch maxEpochsPerAllocation a \/ not_worth_it a).

(** Two lists of deployments share no [bytes32]. *)
Definition disjoint (N L : list SubgraphDeploymentID) : Prop :=
  forall d, has_deployment d N = true -> has_deployment d L = false.

(** ** Statements about runs *)

(** Every collaborator call a computation issues satisfies [P]. *)
Definition emits {Env A : Type} (P : Call -> Prop) (m : M (Env := Env) A) : Prop :=
  forall w, exists issued,
    calls (snd (m w)) = (calls w ++ issued)%list /\ Forall P issued.

(** A computation only appends to the list of unhandled rejections. *)
Definition keeps_unhandled {Env A : Type} (m : M (Env := Env) A) : Prop :=
  forall w, exists more, unhandled (snd (m w)) = (unhandled w ++ more)%list.

(** One poll of the sync wait logs the sync progress and asks for another
    poll. *)
Definition polls_again {Env Rules : Type} {indexer : Indexer Env Rules}
           (self : SubgraphDeploymentID) (w : World Env) : Prop :=
  exists w' latest head,
    waitingForSync self w = (Ok true, w')
    /\ In (mkLog Info "Network subgraph is synced" (ProgressMeta latest head))
          (log w').

(** After the queue of a plan was drained from world [w], leaving world
    [w'], the error [e] of a queued task was caught and logged: some new
    log entry carries its message and it is not left as an unhandled
    rejection. *)
Definition caught_and_logged {Env : Type} (e : JsError) (w w' : World Env) : Prop :=
  (exists entry, In entry (log w') /\ carries e entry)
  /\ ~ In e (unhandled w').

(** ** More of the agent: startup, snapshot gathering, [startAgent] *)

(** The name under which [start] deploys the network subgraph deployment:
    [`${ipfsHash.slice(0, 23)}/${ipfsHash.slice(23)}`]. *)
Definition network_subgraph_name (d : SubgraphDeploymentID) : string :=
  Js.slice (ipfsHash d) 0 (Some 23) ++ "/" ++ Js.slice (ipfsHash d) 23 None.

(** The collaborator calls of [start] before its first loop, in program
    order. *)
Definition setup_calls (self : SubgraphDeploymentID) : list Call :=
  [CConnect; CRegister; CEnsureMinimumStake (parseGRT 1000);
   CEnsure (network_subgraph_name self) self].



Section StartAgent.
Context {Env Rules : Type} {indexer : Indexer Env Rules}
        {network : Network Env Rules}.

(** [Network.create], the asynchronous factory of the network client; it
    belongs to [./network], which is not among the sources. *)
Variable Network_create : SubgraphDeploymentID -> Env -> Result unit * Env.

(** [startAgent]: build the two clients and the agent, await [start], and
    return the agent. [Broke] stands for [start] having returned, that is
    for [startAgent] returning the agent. *)
Definition startAgent (networkSubgraphDeployment : SubgraphDeploymentID)
           (fuel : nat) (w : World Env) : LoopResult * World Env :=
  match Network_create networkSubgraphDeployment (env w) with
  | (Throw e, env') =>
      (Raised e, mkWorld (log w) (calls w) (unhandled w) env')
  | (Ok _, env') =>
      start networkSubgraphDeployment fuel
            (mkWorld (log w) (calls w) (unhandled w) env')
  end.

End StartAgent.

(** ** The plan of the first version of the agent

    [agent.ts] also holds the first version of the [Agent] class
    (lines 1 to 138), in which deployments are plain strings and the plan
    of [resolve] is two [Set]s. *)

Module Legacy.

(** [array.includes(x)] on strings *)
Definition includes (l : list string) (x : string) : bool :=
  existsb (String.eqb x) l.

(** [new Set(array)]: a [Set] iterates in insertion order, and adding a
    value it holds already changes nothing. *)
Definition Set_add (s : list string) (x : string) : list string :=
  if includes s x then s else (s ++ [x])%list.

Definition new_Set (l : list string) : list string :=
  fold_left Set_add l [].

(** The [Set] of subgraphs to deploy and the [Set] of subgraphs to remove
    that [resolve] computes. *)
Definition toDeploy (networkSubgraphs indexerSubgraphs : list string)
  : list string :=
  new_Set (filter (fun networkSubgraph =>
                     negb (includes indexerSubgraphs networkSubgraph))
                  networkSubgraphs).

Definition toRemove (networkSubgraphs indexerSubgraphs : list string)
  : list string :=
  new_Set (filter (fun indexerSubgraph =>
                     negb (includes networkSubgraphs indexerSubgraph))
                  indexerSubgraphs).

End Legacy.

(** ** The query processor of the indexer service

    [QueryProcessor] keeps the pending paid queries in a [Map] from
    payment ids to entries; a query and the payment for it arrive
    separately, in either order, and the entry is processed once it holds
    both. What is modelled is the registry and everything that touches it:
    [addPaidQuery], [addPayment], [processQueryIfReady], the part of
    [processNow] before its first [await] (which is the only part that
    reads or writes the registry), and one pass of
    [periodicallyCleanupStaleQueries]. *)

Module QueryProcessor.

Record PaidQuery : Type := mkPaidQuery {
  subgraphId : string;
  paymentId : string;
  query : string;
  requestCID : string
}.

Record ConditionalPayment : Type := mkConditionalPayment {
  payment_paymentId : string;
  sender : string;
  amount : Z
}.

Record ConditionalSubgraphPayment : Type := mkSubgraphPayment {
  payment : ConditionalPayment;
  payment_subgraphId : string
}.

Record StateChannel : Type := mkStateChannel { subgraph : string }.

(** An entry of the registry. [emitter] is the identity of its
    [EventEmitter]; the promises listening on an emitter are kept in the
    state, since an emitter outlives the entry that was removed from the
    registry. *)
Record PendingQuery : Type := mkPending {
  pending_paymentId : string;
  pending_query : option PaidQuery;
  pending_payment : option ConditionalSubgraphPayment;
  updatedAt : Z;
  emitter : nat
}.

(** [new QueryError(message, status)] *)
Record QueryError : Type := mkQueryError {
  message : string;
  status : option Z
}.

(** What an operation does besides changing the registry: it emits
    ['reject'] on an emitter, which rejects the promises listening on it
    at that moment; it goes on processing an entry it removed from the
    registry (the graph node is queried and ['resolve'] is emitted later);
    it queues the task that cancels a payment on the state channel of the
    payment's subgraph, if there is one. *)
Inductive Event : Type :=
| Rejected (listeners : list nat) (error : QueryError)
| Processing (entry : PendingQuery)
| CancelQueued (p : ConditionalSubgraphPayment).

(** The [Map] in insertion order, keyed by the [paymentId] of its entries,
    and the listeners of every emitter created so far. *)
Record State : Type := mkState {
  queries : list PendingQuery;
  listeners : list (list nat)
}.

Definition empty : State := mkState [] [].

(** [this.queries.get(paymentId)] *)
Definition get (id : string) (qs : list PendingQuery) : option PendingQuery :=
  find (fun e => String.eqb (pending_paymentId e) id) qs.

(** [this.queries.has(paymentId)] *)
Definition has (id : string) (qs : list PendingQuery) : bool :=
  existsb (fun e => String.eqb (pending_paymentId e) id) qs.

(** [this.queries.delete(paymentId)] *)
Definition delete (id : string) (qs : list PendingQuery) : list PendingQuery :=
  filter (fun e => negb (String.eqb (pending_paymentId e) id)) qs.

(** An assignment to a field of the entry stored under [id]: the entry
    keeps its place in the [Map]. *)
Definition update (id : string) (f : PendingQuery -> PendingQuery)
           (qs : list PendingQuery) : list PendingQuery :=
  map (fun e => if String.eqb (pending_paymentId e) id then f e else e) qs.

(** [emitter.on('resolve', resolve); emitter.on('reject', reject)] for the
    promise [caller]. *)
Fixpoint listen (em : nat) (caller : nat) (ls : list (list nat))
  : list (list nat) :=
  match ls, em with
  | [], _ => []
  | l :: r, O => ((l ++ [caller])%list) :: r
  | l :: r, S n => l :: listen n caller r
  end.

Definition listening (em : nat) (ls : list (list nat)) : list nat :=
  nth em ls [].

Definition ready (e : PendingQuery) : bool :=
  match pending_payment e, pending_query e with
  | Some _, Some _ => true
  | _, _ => false
  end.

(** The result of an operation: the error it throws at once, if any, the
    events in order, and the state it leaves. *)
Record Step : Type := mkStep {
  thrown : option QueryError;
  events : list Event;
  after : State
}.

Section Operations.
(** [paymentManager.stateChannelForSubgraph] *)
Variable stateChannelForSubgraph : string -> option StateChannel.

(** [processNow] up to its first [await]. *)
Definition processNow (entry : PendingQuery) (q : PaidQuery) (st : State)
  : list Event * State :=
  match stateChannelForSubgraph (subgraphId q) with
  | None =>
      ([Rejected (listening (emitter entry) (listeners st))
                 (mkQueryError ("Unknown subgraph: " ++ subgraphId q)
                               (Some 404))],
       st)
  | Some _ =>
      ([Processing entry],
       mkState (delete (pending_paymentId entry) (queries st)) (listeners st))
  end.

(** [processQueryIfReady], called for the promise [caller]: [processNow]
    is started, not awaited, and the new promise then listens on the
    emitter of the entry. *)
Definition processQueryIfReady (caller : nat) (id : string) (st : State)
  : Step :=
  match get id (queries st) with
  | None =>
      mkStep (Some (mkQueryError "Cannot read property 'payment' of undefined"
                                 None))
             [] st
  | Some entry =>
      let (evs, st1) :=
        match pending_payment entry, pending_query entry with
        | Some _, Some q => processNow entry q st
        | _, _ => ([], st)
        end in
      mkStep None evs
             (mkState (queries st1)
                      (listen (emitter entry) caller (listeners st1)))
  end.

Definition addPaidQuery (now : Z) (caller : nat) (q : PaidQuery) (st : State)
  : Step :=
  if has (paymentId q) (queries st)
  then
    match get (paymentId q) (queries st) with
    | Some existingQuery =>
        match pending_query existingQuery with
        | Some _ =>
            mkStep (Some (mkQueryError
                            ("Duplicate query for subgraph '" ++ subgraphId q
                               ++ "' and payment '" ++ paymentId q ++ "'")
                            None))
                   [] st
        | None =>
            processQueryIfReady caller (paymentId q)
              (mkState (update (paymentId q)
                          (fun e => mkPending (pending_paymentId e) (Some q)
                                              (pending_payment e) now
                                              (emitter e))
                          (queries st))
                       (listeners st))
        end
    | None =>
        mkStep (Some (mkQueryError "Cannot read property 'query' of undefined"
                                   None))
               [] st
    end
  else
    processQueryIfReady caller (paymentId q)
      (mkState (queries st
                  ++ [mkPending (paymentId q) (Some q) None now
                                (List.length (listeners st))])
               (listeners st ++ [[]])).

Definition addPayment (now : Z) (caller : nat) (stateChannel : StateChannel)
           (p : ConditionalPayment) (st : State) : Step :=
  let subgraphPayment := mkSubgraphPayment p (subgraph stateChannel) in
  if has (payment_paymentId p) (queries st)
  then
    processQueryIfReady caller (payment_paymentId p)
      (mkState (update (payment_paymentId p)
                  (fun e => mkPending (pending_paymentId e) (pending_query e)
                                      (Some subgraphPayment) now (emitter e))
                  (queries st))
               (listeners st))
  else
    processQueryIfReady caller (payment_paymentId p)
      (mkState (queries st
                  ++ [mkPending (payment_paymentId p) None
                                (Some subgraphPayment) now
                                (List.length (listeners st))])
               (listeners st ++ [[]])).

(** [now - query.updatedAt > 10000] *)
Definition stale (now : Z) (e : PendingQuery) : bool :=
  10000 <? now - updatedAt e.

(** What the cleanup reports for a stale entry that holds a payment, and
    for one that holds a query only. *)
Definition expire_payment (ls : list (list nat)) (e : PendingQuery)
           (p : ConditionalSubgraphPayment) : list Event :=
  [Rejected (listening (emitter e) ls)
            (mkQueryError ("Payment '" ++ pending_paymentId e
                             ++ "' timed out waiting for query") None);
   CancelQueued p].

Definition expire_query (ls : list (list nat)) (e : PendingQuery)
           (q : PaidQuery) : list Event :=
  [Rejected (listening (emitter e) ls)
            (mkQueryError ("Query for subgraph '" ++ subgraphId q
                             ++ "' timed out waiting for payment '"
                             ++ pending_paymentId e ++ "'")
                          None)].

(** The [for] loop of one cleanup pass over the values of the [Map], in
    insertion order: a stale entry is deleted and reported. On a stale
    entry without payment and without query, [query.query!.subgraphId]
    throws and the pass ends there. Returns the error, the events and the
    entries that stay. *)
Fixpoint sweep (now : Z) (ls : list (list nat)) (todo : list PendingQuery)
  : option QueryError * list Event * list PendingQuery :=
  match todo with
  | [] => (None, [], [])
  | e :: rest =>
      if stale now e
      then
        match pending_payment e, pending_query e with
        | Some p, _ =>
            let '(t, evs, kept) := sweep now ls rest in
            (t, (expire_payment ls e p ++ evs)%list, kept)
        | None, Some q =>
            let '(t, evs, kept) := sweep now ls rest in
            (t, (expire_query ls e q ++ evs)%list, kept)
        | None, None =>
            (Some (mkQueryError
                     "Cannot read property 'subgraphId' of undefined" None),
             [], rest)
        end
      else
        let '(t, evs, kept) := sweep now ls rest in
        (t, evs, e :: kept)
  end.

(** One pass of [periodicallyCleanupStaleQueries]. *)
Definition cleanup (now : Z) (st : State) : Step :=
  let '(t, evs, kept) := sweep now (listeners st) (queries st) in
  mkStep t evs (mkState kept (listeners st)).

(** What a cleanup pass reports for a stale entry. *)
Definition expire (ls : list (list nat)) (e : PendingQuery) : list Event :=
  match pending_payment e, pending_query e with
  | Some p, _ => expire_payment ls e p
  | None, Some q => expire_query ls e q
  | None, None => []
  end.

End Operations.

(** The registry is a [Map] keyed by payment id and every entry was
    created with a query or with a payment. *)
Definition well_formed (st : State) : Prop :=
  NoDup (map pending_paymentId (queries st))
  /\ (forall e, In e (queries st) ->
                pending_query e <> None \/ pending_payment e <> None)
  /\ (forall e, In e (queries st) -> (emitter e < List.length (listeners st))%nat).

End QueryProcessor.

(** ** Sample inputs for the registry of pending queries *)

Module Sample.

Definition a_query : QueryProcessor.PaidQuery :=
  QueryProcessor.mkPaidQuery "QmSubgraphA" "0xpay1" "{ tokens { id } }" "0xc1d".

Definition a_payment : QueryProcessor.ConditionalPayment :=
  QueryProcessor.mkConditionalPayment "0xpay1" "0xsender" 5.

Definition a_channel : QueryProcessor.StateChannel :=
  QueryProcessor.mkStateChannel "QmSubgraphA".

(** A payment manager with a state channel for every subgraph, and one
    with none. *)
Definition every_channel (s : string) : option QueryProcessor.StateChannel :=
  Some (QueryProcessor.mkStateChannel s).

Definition no_channel (s : string) : option QueryProcessor.StateChannel :=
  None.

(** A registry with one entry, a payment received at time 0 whose promise
    is number 7. *)
Definition one_payment : QueryProcessor.State :=
  QueryProcessor.after
    (QueryProcessor.addPayment every_channel 0 7 a_channel a_payment
                               QueryProcessor.empty).

End Sample.

(** * Properties of the plan computation *)

Section FirstOccurrencesFacts.
Context {A : Type}.
Variable key : A -> string.

Lemma existsb_key (x : A) (l : list A) :
  existsb (fun v => String.eqb (key x) (key v)) l = true
  <-> In (key x) (map key l).
Proof.
  rewrite existsb_exists, in_map_iff. split.
  - intros [v [Hv E]]. apply String.eqb_eq in E. exists v. auto.
  - intros [v [E Hv]]. exists v. split; [assumption|].
    apply String.eqb_eq. auto.
Qed.

Lemma not_found_existsb (p : A -> bool) (l : list A) :
  Js.not_found p l = negb (existsb p l).
Proof.
  unfold Js.not_found. induction l as [|x r IH]; simpl; [reflexivity|].
  destruct (p x); simpl; [reflexivity|exact IH].
Qed.

Lemma findIndex_from_first (p : A -> bool) (x : A) (post : list A) :
  p x = true ->
  forall pre i,
    (Js.findIndex_from p i (pre ++ x :: post)%list =? i + Z.of_nat (List.length pre))
    = negb (existsb p pre).
Proof.
  intros Hx pre. induction pre as [|y pre IH]; intros i.
  - simpl. rewrite Hx. apply Z.eqb_eq. lia.
  - cbn [app Js.findIndex_from existsb List.length]. destruct (p y); simpl.
    + apply Z.eqb_neq. lia.
    + rewrite <- (IH (i + 1)). f_equal. lia.
Qed.

Lemma filter_from_unique (l : list A) :
  forall pre,
    Js.filter_from (unique_by key) (pre ++ l)%list (Z.of_nat (List.length pre)) l
    = keep_first key pre l.
Proof.
  induction l as [|x r IH]; intros pre; [reflexivity|].
  cbn [Js.filter_from keep_first].
  assert (Hcheck : unique_by key x (Z.of_nat (List.length pre)) (pre ++ x :: r)%list
                   = negb (existsb (fun v => String.eqb (key x) (key v)) pre)).
  { unfold unique_by, Js.findIndex.
    rewrite <- (findIndex_from_first _ x r (String.eqb_refl _) pre 0).
    reflexivity. }
  rewrite Hcheck.
  assert (Hnext : Js.filter_from (unique_by key) (pre ++ x :: r)%list
                                 (Z.of_nat (List.length pre) + 1) r
                  = keep_first key (pre ++ [x])%list r).
  { rewrite <- IH. rewrite <- app_assoc. simpl.
    f_equal. rewrite length_app. simpl. lia. }
  rewrite Hnext.
  destruct (existsb _ pre); reflexivity.
Qed.

Lemma filter3_unique (l : list A) :
  Js.filter3 (unique_by key) l = keep_first key [] l.
Proof. exact (filter_from_unique l []). Qed.

Lemma keep_first_incl (l : list A) :
  forall seen x, In x (keep_first key seen l) -> In x l.
Proof.
  induction l as [|y r IH]; intros seen x; simpl; [tauto|].
  destruct (existsb _ seen); simpl; intros H.
  - right. eapply IH. eassumption.
  - destruct H as [H|H]; [left; assumption|right; eapply IH; eassumption].
Qed.

Lemma keep_first_keys (l : list A) :
  forall seen k,
    In k (map key (keep_first key seen l))
    <-> In k (map key l) /\ ~ In k (map key seen).
Proof.
  induction l as [|x r IH]; intros seen k; simpl; [tauto|].
  destruct (existsb (fun v => String.eqb (key x) (key v)) seen) eqn:E.
  - apply existsb_key in E.
    rewrite IH, map_app, in_app_iff. simpl.
    destruct (string_dec (key x) k) as [Heq|Hne]; [subst k|]; tauto.
  - assert (Hx : ~ In (key x) (map key seen)).
    { intros H. apply existsb_key in H. congruence. }
    simpl. rewrite IH, map_app, in_app_iff. simpl.
    destruct (string_dec (key x) k) as [Heq|Hne]; [subst k|]; tauto.
Qed.

Lemma keep_first_NoDup (l : list A) :
  forall seen, NoDup (map key (keep_first key seen l)).
Proof.
  induction l as [|x r IH]; intros seen; simpl; [constructor|].
  destruct (existsb _ seen); [apply IH|].
  simpl. constructor; [|apply IH].
  rewrite keep_first_keys, map_app, in_app_iff. simpl. tauto.
Qed.

Lemma keep_first_complete (l : list A) :
  forall seen x,
    In x l ->
    (forall y, In y seen -> key y <> key x) ->
    (forall y, In y l -> key y = key x -> y = x) ->
    In x (keep_first key seen l).
Proof.
  induction l as [|z r IH]; intros seen x Hin Hseen Hid; [destruct Hin|].
  simpl. destruct (string_dec (key z) (key x)) as [E|Hne].
  - assert (z = x) by (apply Hid; [left; reflexivity|assumption]). subst z.
    destruct (existsb _ seen) eqn:Ex.
    + apply existsb_key, in_map_iff in Ex. destruct Ex as [y [Ey Hy]].
      exfalso. exact (Hseen y Hy Ey).
    + left. reflexivity.
  - assert (Hr : In x (keep_first key (seen ++ [z])%list r)).
    { apply IH.
      - destruct Hin as [->|H]; [congruence|assumption].
      - intros y Hy. apply in_app_or in Hy.
        destruct Hy as [Hy|[<-|[]]]; [apply Hseen; assumption|assumption].
      - intros y Hy. apply Hid. right. assumption. }
    destruct (existsb _ seen); [assumption|right; assumption].
Qed.

(** Keys of a filtered list, when the callback only depends on the key. *)
Lemma filter_keys (p : A -> bool) (q : string -> Prop) (l : list A) :
  (forall x, p x = true <-> q (key x)) ->
  forall k, In k (map key (filter p l)) <-> In k (map key l) /\ q k.
Proof.
  intros Hp k. rewrite !in_map_iff. split.
  - intros [x [E Hx]]. apply filter_In in Hx. destruct Hx as [Hx Hpx].
    subst k. split; [exists x; auto|apply Hp; assumption].
  - intros [[x [E Hx]] Hq]. subst k. exists x. split; [reflexivity|].
    apply filter_In. split; [assumption|apply Hp; assumption].
Qed.

Lemma filter_keys_NoDup (p : A -> bool) (l : list A) :
  NoDup (map key l) -> NoDup (map key (filter p l)).
Proof.
  induction l as [|x r IH]; simpl; intros H; [constructor|].
  inversion H as [|? ? Hx Hr]; subst.
  destruct (p x); simpl; [|apply IH; assumption].
  constructor; [|apply IH; assumption].
  intros Hin. apply Hx. apply in_map_iff in Hin.
  destruct Hin as [y [E Hy]]. apply filter_In in Hy.
  apply in_map_iff. exists y. tauto.
Qed.

End FirstOccurrencesFacts.

Lemma uniqueDeploymentsOnly_keep_first (l : list SubgraphDeploymentID) :
  Js.filter3 uniqueDeploymentsOnly l = keep_first bytes32 [] l.
Proof. exact (filter3_unique bytes32 l). Qed.

Lemma uniqueAllocationsOnly_keep_first (l : list Allocation) :
  Js.filter3 uniqueAllocationsOnly l = keep_first alloc_id [] l.
Proof. exact (filter3_unique alloc_id l). Qed.

Lemma has_deployment_keys (d : SubgraphDeploymentID) l :
  has_deployment d l = true <-> In (bytes32 d) (map bytes32 l).
Proof. exact (existsb_key bytes32 d l). Qed.

Lemma has_deployment_false (d : SubgraphDeploymentID) l :
  has_deployment d l = false <-> ~ In (bytes32 d) (map bytes32 l).
Proof.
  rewrite <- has_deployment_keys. destruct (has_deployment d l); split;
    congruence.
Qed.

Lemma allocated_to_keys (d : SubgraphDeploymentID) (l : list Allocation) :
  allocated_to d l = true
  <-> In (bytes32 d) (map (fun a => bytes32 (id (subgraphDeployment a))) l).
Proof.
  unfold allocated_to, same_bytes32. rewrite existsb_exists, in_map_iff.
  split; intros [a [H1 H2]]; exists a.
  - apply String.eqb_eq in H2. auto.
  - split; [assumption|]. apply String.eqb_eq. assumption.
Qed.

(** The callback of the first [filter]: [x] has no [bytes32] match in
    [others]. *)
Lemma absent_from (others : list SubgraphDeploymentID) (x : SubgraphDeploymentID) :
  Js.not_found (fun o => same_bytes32 x o) others = true
  <-> ~ In (bytes32 x) (map bytes32 others).
Proof.
  rewrite not_found_existsb, negb_true_iff.
  exact (has_deployment_false x others).
Qed.

Lemma unallocated (allocations : list Allocation) (x : SubgraphDeploymentID) :
  Js.not_found (fun a => same_bytes32 (id (subgraphDeployment a)) x) allocations
  = true
  <-> ~ In (bytes32 x)
          (map (fun a => bytes32 (id (subgraphDeployment a))) allocations).
Proof.
  rewrite not_found_existsb, negb_true_iff, <- allocated_to_keys.
  unfold allocated_to. destruct (existsb _ allocations); split; congruence.
Qed.

Lemma shouldSettle_spec (epoch maxEpochs : Z) (a : Allocation) :
  shouldSettle epoch maxEpochs a = true
  <-> too_old epoch maxEpochs a \/ not_worth_it a.
Proof.
  unfold shouldSettle, too_old, not_worth_it.
  rewrite orb_true_iff, andb_true_iff, !Z.ltb_lt. tauto.
Qed.

Section PlanFacts.
Variable self : SubgraphDeploymentID.
Variables epoch maxEpochs : Z.
Variables N L : list SubgraphDeploymentID.
Variable allocations : list Allocation.

Local Abbreviation plan := (resolve_plan self epoch maxEpochs N L allocations).

Lemma toDeploy_keys (k : string) :
  In k (map bytes32 (toDeploy plan))
  <-> (In k (map bytes32 N) /\ ~ In k (map bytes32 L)) \/ k = bytes32 self.
Proof.
  unfold resolve_plan. cbn [toDeploy].
  rewrite uniqueDeploymentsOnly_keep_first.
  set (kept := keep_first bytes32 [] _).
  assert (Hkept : forall k', In k' (map bytes32 kept)
                             <-> In k' (map bytes32 N) /\ ~ In k' (map bytes32 L)).
  { intros k'. unfold kept. rewrite keep_first_keys.
    rewrite (filter_keys bytes32 _ (fun k => ~ In k (map bytes32 L)))
      by (intros x; apply absent_from).
    simpl. tauto. }
  destruct (Js.not_found _ kept) eqn:E.
  - unfold Js.push. rewrite map_app, in_app_iff, Hkept. simpl.
    intuition auto.
  - rewrite not_found_existsb, negb_false_iff in E.
    apply existsb_exists in E. destruct E as [d [Hd E]].
    apply String.eqb_eq in E.
    assert (Hself : In (bytes32 self) (map bytes32 kept)).
    { rewrite <- E. apply in_map. assumption. }
    rewrite Hkept. apply Hkept in Hself. split; [tauto|].
    intros [H|H]; [assumption|subst k; assumption].
Qed.

Lemma toRemove_keys (k : string) :
  In k (map bytes32 (toRemove plan))
  <-> In k (map bytes32 L) /\ ~ In k (map bytes32 N).
Proof.
  unfold resolve_plan. cbn [toRemove].
  rewrite uniqueDeploymentsOnly_keep_first, keep_first_keys.
  rewrite (filter_keys bytes32 _ (fun k => ~ In k (map bytes32 N)))
    by (intros x; apply absent_from).
  simpl. tauto.
Qed.

Lemma toAllocate_keys (k : string) :
  In k (map bytes32 (toAllocate plan))
  <-> In k (map bytes32 N)
      /\ ~ In k (map (fun a => bytes32 (id (subgraphDeployment a))) allocations)
      /\ k <> bytes32 self.
Proof.
  unfold resolve_plan. cbn [toAllocate].
  rewrite (filter_keys bytes32 _ (fun k => k <> bytes32 self)).
  - rewrite uniqueDeploymentsOnly_keep_first, keep_first_keys.
    rewrite (filter_keys bytes32 _
               (fun k => ~ In k (map (fun a => bytes32 (id (subgraphDeployment a)))
                                     allocations)))
      by (intros x; apply unallocated).
    simpl. tauto.
  - intros x. unfold same_bytes32. rewrite negb_true_iff. apply String.eqb_neq.
Qed.

Lemma toSettle_members (a : Allocation) :
  In a (toSettle plan)
  <-> In a (keep_first alloc_id []
              (filter (shouldSettle epoch maxEpochs) allocations)).
Proof.
  unfold resolve_plan. cbn [toSettle].
  rewrite uniqueAllocationsOnly_keep_first. tauto.
Qed.

End PlanFacts.

Section PlanTheorems.
Variable self : SubgraphDeploymentID.
Variables epoch maxEpochs : Z.
Variables N L : list SubgraphDeploymentID.
Variable allocations : list Allocation.

Local Abbreviation plan := (resolve_plan self epoch maxEpochs N L allocations).

Lemma toDeploy_NoDup : NoDup (map bytes32 (toDeploy plan)).
Proof.
  unfold resolve_plan. cbn [toDeploy].
  rewrite uniqueDeploymentsOnly_keep_first.
  set (kept := keep_first bytes32 [] _).
  assert (Hkept : NoDup (map bytes32 kept)) by apply keep_first_NoDup.
  destruct (Js.not_found _ kept) eqn:E; [|assumption].
  unfold Js.push. rewrite map_app. simpl.
  apply NoDup_app; [assumption|repeat constructor; simpl; tauto|].
  intros k Hk [<-|[]].
  rewrite not_found_existsb, negb_true_iff in E.
  apply in_map_iff in Hk. destruct Hk as [d [Ed Hd]].
  assert (Hex : existsb (fun d' => same_bytes32 d' self) kept = true).
  { apply existsb_exists. exists d. split; [assumption|].
    apply String.eqb_eq. assumption. }
  congruence.
Qed.

Lemma toDeploy_incl : has_deployment self N = true ->
                      has_deployment self L = false ->
                      incl (toDeploy plan) N.
Proof.
  intros HN HL. unfold resolve_plan. cbn [toDeploy].
  rewrite uniqueDeploymentsOnly_keep_first.
  set (kept := keep_first bytes32 [] _).
  assert (Hincl : incl kept N).
  { intros d Hd. apply keep_first_incl in Hd. apply filter_In in Hd. tauto. }
  destruct (Js.not_found _ kept) eqn:E; [|assumption].
  exfalso. rewrite not_found_existsb, negb_true_iff in E.
  assert (Hself : In (bytes32 self) (map bytes32 kept)).
  { unfold kept. rewrite keep_first_keys.
    rewrite (filter_keys bytes32 _ (fun k => ~ In k (map bytes32 L)))
      by (intros x; apply absent_from).
    apply has_deployment_keys in HN. apply has_deployment_false in HL.
    simpl. tauto. }
  apply in_map_iff in Hself. destruct Hself as [d [Ed Hd]].
  assert (Hex : existsb (fun d' => same_bytes32 d' self) kept = true).
  { apply existsb_exists. exists d. split; [assumption|].
    apply String.eqb_eq. assumption. }
  congruence.
Qed.

(** C1 (amended): when entries of the allocation list that carry the same id
    are the same allocation, an allocation is in [toSettle] exactly when it
    is in the list and was created before
    [epoch - max(1, maxEpochsPerAllocation) + 1], or its deployment has
    both its signal below [MINIMUM_SIGNAL] and its stake below
    [MINIMUM_STAKE]; either trigger is enough. For an allocation of the
    list it makes no difference whether membership in [toSettle] is taken
    on the entry or on its id. *)
Theorem toSettle_iff_triggered :
  ids_identify allocations ->
  forall a,
    (In a (toSettle (resolve_plan self epoch maxEpochs N L allocations))
     <-> In a allocations
         /\ (createdAtEpoch a < epoch - Z.max 1 maxEpochs + 1
             \/ (signalAmount (subgraphDeployment a) < MINIMUM_SIGNAL
                 /\ stakedTokens (subgraphDeployment a) < MINIMUM_STAKE)))
    /\ (In a allocations ->
        (has_allocation a
           (toSettle (resolve_plan self epoch maxEpochs N L allocations))
         = true
         <-> createdAtEpoch a < epoch - Z.max 1 maxEpochs + 1
             \/ (signalAmount (subgraphDeployment a) < MINIMUM_SIGNAL
                 /\ stakedTokens (subgraphDeployment a) < MINIMUM_STAKE))).
Proof.
  intros Hids.
  assert (Hmem : forall a,
             In a (toSettle (resolve_plan self epoch maxEpochs N L allocations))
             <-> In a allocations /\ shouldSettle epoch maxEpochs a = true).
  { intros a. rewrite toSettle_members, <- filter_In. split.
    - apply keep_first_incl.
    - intros Hin. apply keep_first_complete; [assumption|intros y []|].
      intros y Hy E. apply filter_In in Hy, Hin. apply Hids; tauto. }
  intros a.
  fold (settleAllocationsBeforeEpoch epoch maxEpochs).
  fold (too_old epoch maxEpochs a). fold (not_worth_it a).
  rewrite <- shouldSettle_spec. split; [apply Hmem|].
  intros Ha. unfold has_allocation. rewrite existsb_exists. split.
  - intros [b [Hb E]]. apply String.eqb_eq in E.
    apply Hmem in Hb. destruct Hb as [Hb Hsettle].
    assert (a = b) by (apply Hids; assumption). subst b. assumption.
  - intros Hsettle. exists a. split; [apply Hmem; tauto|].
    apply String.eqb_refl.
Qed.

(** C2: whatever the network-desired list, the locally indexed list and the
    allocations are, the network subgraph deployment is in [toDeploy] and
    is not in [toAllocate] (membership under [bytes32] equality). *)
Theorem self_deployed_never_allocated :
  has_deployment self (toDeploy (resolve_plan self epoch maxEpochs N L allocations)) = true
  /\ has_deployment self (toAllocate (resolve_plan self epoch maxEpochs N L allocations)) = false.
Proof.
  split.
  - apply has_deployment_keys, toDeploy_keys. right. reflexivity.
  - apply has_deployment_false. rewrite toAllocate_keys. tauto.
Qed.

(** C3: for a network-desired list [N] that contains the network subgraph
    deployment and a locally indexed list [L] that shares no deployment
    with it, [toDeploy] is [N] minus [L] and [toRemove] is [L] minus [N]
    under [bytes32] equality, every entry of [toDeploy] is an entry of [N]
    and every entry of [toRemove] an entry of [L], and no deployment is in
    both [toDeploy] and [toRemove]. *)
Theorem deploy_remove_are_differences :
  disjoint N L ->
  has_deployment self N = true ->
  (forall d, has_deployment d (toDeploy (resolve_plan self epoch maxEpochs N L allocations))
             = has_deployment d N && negb (has_deployment d L))
  /\ (forall d, has_deployment d (toRemove (resolve_plan self epoch maxEpochs N L allocations))
                = has_deployment d L && negb (has_deployment d N))
  /\ incl (toDeploy (resolve_plan self epoch maxEpochs N L allocations)) N
  /\ incl (toRemove (resolve_plan self epoch maxEpochs N L allocations)) L
  /\ (forall d, has_deployment d (toDeploy (resolve_plan self epoch maxEpochs N L allocations))
                && has_deployment d (toRemove (resolve_plan self epoch maxEpochs N L allocations)) = false).
Proof.
  intros Hdisj Hself.
  assert (HselfL : has_deployment self L = false) by (apply Hdisj; assumption).
  assert (HD : forall d, has_deployment d (toDeploy plan)
                         = has_deployment d N && negb (has_deployment d L)).
  { intros d. apply eq_true_iff_eq.
    rewrite andb_true_iff, negb_true_iff, has_deployment_false,
      !has_deployment_keys, toDeploy_keys.
    apply has_deployment_keys in Hself. apply has_deployment_false in HselfL.
    split; [|tauto].
    intros [H|H]; [assumption|rewrite H; tauto]. }
  assert (HR : forall d, has_deployment d (toRemove plan)
                         = has_deployment d L && negb (has_deployment d N)).
  { intros d. apply eq_true_iff_eq.
    rewrite andb_true_iff, negb_true_iff, has_deployment_false,
      !has_deployment_keys, toRemove_keys. tauto. }
  repeat split; try assumption.
  - apply toDeploy_incl; assumption.
  - intros d Hd. unfold resolve_plan in Hd. cbn [toRemove] in Hd.
    rewrite uniqueDeploymentsOnly_keep_first in Hd.
    apply keep_first_incl, filter_In in Hd. tauto.
  - intros d. rewrite HD, HR.
    destruct (has_deployment d N), (has_deployment d L); reflexivity.
Qed.

(** C4: [toAllocate] holds exactly the network-desired deployments that no
    allocation of the list backs (under [bytes32] equality with the
    allocation's deployment), the network subgraph deployment excluded;
    its entries are entries of [N]. *)
Theorem toAllocate_unallocated_desired :
  (forall d, has_deployment d (toAllocate (resolve_plan self epoch maxEpochs N L allocations))
             = has_deployment d N && negb (allocated_to d allocations)
               && negb (same_bytes32 d self))
  /\ incl (toAllocate (resolve_plan self epoch maxEpochs N L allocations)) N.
Proof.
  split.
  - intros d. apply eq_true_iff_eq.
    rewrite !andb_true_iff, !negb_true_iff, !has_deployment_keys,
      toAllocate_keys.
    assert (Ha : allocated_to d allocations = false
                 <-> ~ In (bytes32 d)
                         (map (fun a => bytes32 (id (subgraphDeployment a)))
                              allocations)).
    { rewrite <- allocated_to_keys.
      destruct (allocated_to d allocations); split; congruence. }
    unfold same_bytes32. rewrite Ha, String.eqb_neq. tauto.
  - intros d Hd. unfold resolve_plan in Hd. cbn [toAllocate] in Hd.
    apply filter_In in Hd. destruct Hd as [Hd _].
    rewrite uniqueDeploymentsOnly_keep_first in Hd.
    apply keep_first_incl, filter_In in Hd. tauto.
Qed.

(** C5: none of the four lists of the plan holds two entries with the same
    key ([bytes32] for the three deployment lists, the allocation id for
    [toSettle]), whatever repetitions the inputs contain; that includes
    [toDeploy] after the network subgraph deployment was pushed onto it. *)
Theorem plan_has_no_duplicates :
  NoDup (map bytes32 (toDeploy (resolve_plan self epoch maxEpochs N L allocations)))
  /\ NoDup (map bytes32 (toRemove (resolve_plan self epoch maxEpochs N L allocations)))
  /\ NoDup (map bytes32 (toAllocate (resolve_plan self epoch maxEpochs N L allocations)))
  /\ NoDup (map alloc_id (toSettle (resolve_plan self epoch maxEpochs N L allocations))).
Proof.
  split; [apply toDeploy_NoDup|].
  unfold resolve_plan. cbn [toRemove toAllocate toSettle].
  rewrite !uniqueDeploymentsOnly_keep_first, uniqueAllocationsOnly_keep_first.
  repeat split.
  - apply keep_first_NoDup.
  - apply filter_keys_NoDup, keep_first_NoDup.
  - apply keep_first_NoDup.
Qed.

End PlanTheorems.

(** The network subgraph deployment, once pushed onto the network-desired
    list, is not in [toRemove]. *)
Lemma pushed_self_not_removed self epoch maxEpochs N L allocations :
  forall d,
    In d (toRemove (resolve_plan self epoch maxEpochs (Js.push N self) L
                                 allocations)) ->
    bytes32 d <> bytes32 self.
Proof.
  intros d Hd E.
  assert (H : In (bytes32 d)
                 (map bytes32 (toRemove (resolve_plan self epoch maxEpochs
                                           (Js.push N self) L allocations))))
    by (apply in_map; assumption).
  apply toRemove_keys in H. destruct H as [_ H]. apply H.
  unfold Js.push. rewrite map_app, in_app_iff. right. left. auto.
Qed.

(** * Properties of the runs *)

Section RunFacts.
Context {Env Rules : Type} {indexer : Indexer Env Rules}
        {network : Network Env Rules}.
Variable self : SubgraphDeploymentID.

Lemma call_run {A} (c : Call) (f : Env -> Result A * Env) (w : World Env) :
  call c f w
  = (fst (f (env w)),
     mkWorld (log w) (calls w ++ [c]) (unhandled w) (snd (f (env w)))).
Proof. unfold call. destruct (f (env w)); reflexivity. Qed.

Lemma for_each_app {A} (f : A -> M (Env := Env) unit) (l1 l2 : list A) w :
  for_each (l1 ++ l2) f w = bind (for_each l1 f) (fun _ => for_each l2 f) w.
Proof.
  revert w. induction l1 as [|x r IH]; intros w; [reflexivity|].
  cbn [app for_each]. unfold bind in *. destruct (f x w) as [[[]|e] w1].
  - apply IH.
  - reflexivity.
Qed.


Lemma fill_queue_tasks (plan : Plan) :
  PQueue.tasks (fill_queue (Env := Env) plan)
  = (map deploy_task (toDeploy plan) ++ map remove_task (toRemove plan))%list.
Proof.
  unfold fill_queue.
  assert (Hfold : forall (task : SubgraphDeploymentID -> M (Env := Env) unit) l q,
             PQueue.tasks (fold_left (fun q d => PQueue.add q (task d)) l q)
             = (PQueue.tasks q ++ map task l)%list).
  { intros task l. induction l as [|d r IH]; intros q; simpl.
    - rewrite app_nil_r. reflexivity.
    - rewrite IH. simpl. rewrite <- app_assoc. reflexivity. }
  rewrite !Hfold. reflexivity.
Qed.

(** What one queued deploy task does to the world: it never rejects. *)
Lemma deploy_task_run (d : SubgraphDeploymentID) (w : World Env) :
  let name := deployment_name d in
  floating (deploy_task d) w
  = (Ok tt,
     mkWorld (log w ++ [begin_indexing d])
             (calls w ++ [CEnsure name d])
             (unhandled w
                ++ match fst (ensure name d (env w)) with
                   | Ok _ => []
                   | Throw e => [e]
                   end)
             (snd (ensure name d (env w)))).
Proof.
  cbn zeta. unfold floating at 1, deploy_task, bind, logger, delay, ret.
  unfold floating. rewrite call_run. cbn [env log calls unhandled fst snd].
  destruct (ensure _ d (env w)) as [[[]|e] env1]; cbn [fst snd].
  - rewrite app_nil_r. reflexivity.
  - reflexivity.
Qed.

(** What one queued remove task does to the world: its rejection is left
    unhandled. *)
Lemma remove_task_run (d : SubgraphDeploymentID) (w : World Env) :
  floating (remove_task d) w
  = (Ok tt,
     mkWorld (log w)
             (calls w ++ [CRemove d])
             (unhandled w
                ++ match fst (remove d (env w)) with
                   | Ok _ => []
                   | Throw e => [e]
                   end)
             (snd (remove d (env w)))).
Proof.
  unfold floating, remove_task. rewrite call_run.
  destruct (remove d (env w)) as [[[]|e] env1]; cbn [fst snd log calls unhandled env].
  - rewrite app_nil_r. reflexivity.
  - reflexivity.
Qed.

Lemma drain_deploys (ds : list SubgraphDeploymentID) :
  forall w : World Env,
    let r := for_each (map deploy_task ds) floating w in
    fst r = Ok tt
    /\ calls (snd r) = (calls w ++ map (fun d => CEnsure (deployment_name d) d) ds)%list
    /\ log (snd r) = (log w ++ map begin_indexing ds)%list
    /\ (exists more, unhandled (snd r) = (unhandled w ++ more)%list)
    /\ (forall d e, In d ds ->
                    (forall s, fst (ensure (deployment_name d) d s) = Throw e) ->
                    In e (unhandled (snd r))).
Proof.
  induction ds as [|d ds IH]; intros w.
  - cbn. rewrite !app_nil_r. repeat split; [exists []; rewrite app_nil_r|];
      [reflexivity|intros ? ? []].
  - cbn [map for_each]. unfold bind. rewrite deploy_task_run.
    match goal with |- context [for_each _ floating ?w1] =>
      specialize (IH w1); set (r1 := for_each _ floating w1) in * end.
    cbn zeta in IH. destruct IH as [Hok [Hcalls [Hlog [[more Hun] Herr]]]].
    cbn [log calls unhandled env] in *.
    split; [assumption|]. split; [rewrite Hcalls, <- app_assoc; reflexivity|].
    split; [rewrite Hlog, <- app_assoc; reflexivity|].
    split; [rewrite Hun, <- app_assoc; eexists; reflexivity|].
    intros d' e [<-|Hin] Hthrows.
    + rewrite Hun, (Hthrows (env w)). apply in_or_app. left.
      apply in_or_app. right. left. reflexivity.
    + eapply Herr; eassumption.
Qed.

Lemma drain_removes (ds : list SubgraphDeploymentID) :
  forall w : World Env,
    let r := for_each (map remove_task ds) floating w in
    fst r = Ok tt
    /\ calls (snd r) = (calls w ++ map CRemove ds)%list
    /\ log (snd r) = log w
    /\ (exists more, unhandled (snd r) = (unhandled w ++ more)%list)
    /\ (forall d e, In d ds ->
                    (forall s, fst (remove d s) = Throw e) ->
                    In e (unhandled (snd r))).
Proof.
  induction ds as [|d ds IH]; intros w.
  - cbn. rewrite !app_nil_r. repeat split; [exists []; rewrite app_nil_r|];
      [reflexivity|intros ? ? []].
  - cbn [map for_each]. unfold bind. rewrite remove_task_run.
    match goal with |- context [for_each _ floating ?w1] =>
      specialize (IH w1); set (r1 := for_each _ floating w1) in * end.
    cbn zeta in IH. destruct IH as [Hok [Hcalls [Hlog [[more Hun] Herr]]]].
    cbn [log calls unhandled env] in *.
    split; [assumption|]. split; [rewrite Hcalls, <- app_assoc; reflexivity|].
    split; [assumption|].
    split; [rewrite Hun, <- app_assoc; eexists; reflexivity|].
    intros d' e [<-|Hin] Hthrows.
    + rewrite Hun, (Hthrows (env w)). apply in_or_app. left.
      apply in_or_app. right. left. reflexivity.
    + eapply Herr; eassumption.
Qed.


End RunFacts.

Section EmitsFacts.
Context {Env : Type}.
Variable P : Call -> Prop.

Ltac no_call := intros w; exists []; cbn; rewrite app_nil_r; auto.

Lemma emits_ret {A} (a : A) : emits (Env := Env) P (ret a).
Proof. no_call. Qed.

Lemma emits_throw {A} (e : JsError) : emits (Env := Env) (A := A) P (throw e).
Proof. no_call. Qed.

Lemma emits_logger lvl msg m : emits (Env := Env) P (logger lvl msg m).
Proof. no_call. Qed.

Lemma emits_delay ms : emits (Env := Env) P (delay ms).
Proof. no_call. Qed.

Lemma emits_call {A} (c : Call) (f : Env -> Result A * Env) :
  P c -> emits P (call c f).
Proof.
  intros Hc w. exists [c]. unfold call. destruct (f (env w)). cbn. auto.
Qed.

Lemma emits_bind {A B} (m : M (Env := Env) A) (k : A -> M B) :
  emits P m -> (forall a, emits P (k a)) -> emits P (bind m k).
Proof.
  intros Hm Hk w. unfold bind. destruct (Hm w) as [i1 [E1 F1]].
  destruct (m w) as [[a|e] w1]; cbn [snd] in *.
  - destruct (Hk a w1) as [i2 [E2 F2]]. exists (i1 ++ i2)%list.
    rewrite E2, E1, app_assoc. split; [reflexivity|].
    apply Forall_app. auto.
  - exists i1. auto.
Qed.

Lemma emits_try_catch {A} (body : M (Env := Env) A) (handler : JsError -> M A) :
  emits P body -> (forall e, emits P (handler e)) ->
  emits P (try_catch body handler).
Proof.
  intros Hm Hk w. unfold try_catch. destruct (Hm w) as [i1 [E1 F1]].
  destruct (body w) as [[a|e] w1]; cbn [snd] in *.
  - exists i1. auto.
  - destruct (Hk e w1) as [i2 [E2 F2]]. exists (i1 ++ i2)%list.
    rewrite E2, E1, app_assoc. split; [reflexivity|].
    apply Forall_app. auto.
Qed.

Lemma emits_floating {A} (m : M (Env := Env) A) :
  emits P m -> emits P (floating m).
Proof.
  intros Hm w. unfold floating. destruct (Hm w) as [i1 [E1 F1]].
  destruct (m w) as [[a|e] w1]; cbn [snd calls] in *; exists i1; auto.
Qed.

Lemma emits_for_each {A} (f : A -> M (Env := Env) unit) (l : list A) :
  (forall x, In x l -> emits P (f x)) -> emits P (for_each l f).
Proof.
  induction l as [|x r IH]; intros H; cbn [for_each].
  - apply emits_ret.
  - apply emits_bind; [apply H; left; reflexivity|].
    intros _. apply IH. intros y Hy. apply H. right. assumption.
Qed.

Lemma emits_loop (f : M (Env := Env) bool) (interval : Z) :
  emits P f ->
  forall fuel w, exists issued,
    calls (snd (loop fuel f interval w)) = (calls w ++ issued)%list
    /\ Forall P issued.
Proof.
  intros Hf fuel. induction fuel as [|n IH]; intros w; cbn [loop].
  - exists []. cbn. rewrite app_nil_r. auto.
  - destruct (Hf w) as [i1 [E1 F1]].
    destruct (f w) as [[[|]|e] w1]; cbn [snd] in *; try solve [exists i1; auto].
    unfold delay, ret. cbn [snd].
    destruct (IH w1) as [i2 [E2 F2]]. exists (i1 ++ i2)%list.
    rewrite E2, E1, app_assoc. split; [reflexivity|].
    apply Forall_app. auto.
Qed.

End EmitsFacts.

Section RunTheorems.
Context {Env Rules : Type} {indexer : Indexer Env Rules}
        {network : Network Env Rules}.
Variable self : SubgraphDeploymentID.

Lemma tick_run (w : World Env) :
  tick self w
  = match tick_body self w with
    | (Ok _, w1) => (Ok true, w1)
    | (Throw e, w1) =>
        (Ok true,
         mkWorld (log w1 ++ [mkLog Warn "Synchronization loop failed:"
                                   (ErrorMeta (message e))])
                 (calls w1) (unhandled w1) (env w1))
    end.
Proof.
  unfold tick, bind, try_catch, logger, ret.
  destruct (tick_body self w) as [[[]|e] w1]; reflexivity.
Qed.

Lemma tick_loop_runs (fuel : nat) :
  forall w : World Env, fst (loop fuel (tick self) 5000 w) = Running.
Proof.
  induction fuel as [|n IH]; intros w; [reflexivity|].
  cbn [loop]. rewrite tick_run.
  destruct (tick_body self w) as [[[]|e] w1]; apply IH.
Qed.

(** C6: whatever the collaborators do, a tick whose [try] block (the
    gathering of the snapshots, the plan computation and the execution of
    the plan) throws an error ends normally and asks for the next
    iteration, after appending to the log one warning that carries the
    message of the error; a tick whose block does not throw adds nothing.
    The loop over ticks is therefore never left: after any number of
    iterations it is still running. *)
Theorem tick_errors_are_caught (w : World Env) :
  (exists w',
      tick self w = (Ok true, w')
      /\ match tick_body self w with
         | (Ok _, w1) => w' = w1
         | (Throw e, w1) =>
             log w' = (log w1 ++ [mkLog Warn "Synchronization loop failed:"
                                        (ErrorMeta (message e))])%list
             /\ calls w' = calls w1
             /\ unhandled w' = unhandled w1
             /\ env w' = env w1
         end)
  /\ (forall fuel, fst (loop fuel (tick self) 5000 w) = Running).
Proof.
  split; [|intros fuel; apply tick_loop_runs].
  rewrite tick_run.
  destruct (tick_body self w) as [[[]|e] w1]; eexists; split;
    try reflexivity; cbn; auto.
Qed.

(** C7 (amended): a queued deploy or remove task has no error handler of
    its own. Whatever the collaborators do, draining the queue of a plan
    returns normally, so nothing reaches the tick-level handler; every
    queued task is run, in submission order, whether or not earlier ones
    failed; the log only receives the entries that announce the deploy
    tasks; and the error of a removal (or of the unawaited [ensure] of a
    deploy task) that fails is left as an unhandled rejection. *)
Theorem queued_task_errors_stay_unhandled (plan : Plan) (w : World Env) :
  let r := PQueue.onIdle (fill_queue plan) w in
  fst r = Ok tt
  /\ calls (snd r)
     = (calls w ++ map (fun d => CEnsure (deployment_name d) d) (toDeploy plan)
          ++ map CRemove (toRemove plan))%list
  /\ log (snd r) = (log w ++ map begin_indexing (toDeploy plan))%list
  /\ (forall d e, In d (toRemove plan) ->
                  (forall s, fst (remove d s) = Throw e) ->
                  In e (unhandled (snd r)))
  /\ (forall d e, In d (toDeploy plan) ->
                  (forall s, fst (ensure (deployment_name d) d s) = Throw e) ->
                  In e (unhandled (snd r))).
Proof.
  cbn zeta. unfold PQueue.onIdle. rewrite fill_queue_tasks, for_each_app.
  unfold bind.
  destruct (drain_deploys (toDeploy plan) w)
    as [Hok1 [Hcalls1 [Hlog1 [_ Herr1]]]].
  destruct (for_each (map deploy_task (toDeploy plan)) floating w)
    as [[[]|e1] w1]; cbn [fst snd] in *; [|discriminate].
  destruct (drain_removes (toRemove plan) w1)
    as [Hok2 [Hcalls2 [Hlog2 [[more Hun2] Herr2]]]].
  split; [assumption|].
  split; [rewrite Hcalls2, Hcalls1, <- app_assoc; reflexivity|].
  split; [rewrite Hlog2; assumption|].
  split; [assumption|].
  intros d e Hd Hthrows. rewrite Hun2. apply in_or_app. left.
  eapply Herr1; eassumption.
Qed.





End RunTheorems.



Section StartTheorems.
Context {Env Rules : Type} {indexer : Indexer Env Rules}
        {network : Network Env Rules}.
Variable self : SubgraphDeploymentID.

Ltac step_emits :=
  repeat lazymatch goal with
    | |- emits _ (bind _ _) => apply emits_bind; [|intros ?]
    | |- emits _ (logger _ _ _) => apply emits_logger
    | |- emits _ (ret _) => apply emits_ret
    | |- emits _ (throw _) => apply emits_throw
    | |- emits _ (delay _) => apply emits_delay
    | |- emits _ (floating _) => apply emits_floating
    | |- emits _ (call _ _) => apply emits_call; exact I
    end.

Lemma execute_plan_never_removes (plan : Plan) :
  (forall d, In d (toRemove plan) -> bytes32 d <> bytes32 self) ->
  emits (Env := Env) (never_removes self) (execute_plan plan).
Proof.
  intros Hrm. unfold execute_plan. step_emits.
  - apply emits_for_each. intros a _. step_emits.
  - apply emits_for_each. intros d _. step_emits.
  - unfold PQueue.onIdle. rewrite fill_queue_tasks.
    apply emits_for_each. intros task Htask. apply emits_floating.
    apply in_app_or in Htask. destruct Htask as [H|H];
      apply in_map_iff in H; destruct H as [d [<- Hd]].
    + unfold deploy_task. cbn zeta. step_emits.
    + unfold remove_task. apply emits_call. cbn. apply Hrm. assumption.
Qed.

Lemma tick_never_removes : emits (Env := Env) (never_removes self) (tick self).
Proof.
  unfold tick. apply emits_bind; [|intros ?; apply emits_ret].
  apply emits_try_catch; [|intros e; apply emits_logger].
  unfold tick_body. step_emits. cbn zeta. unfold resolve. step_emits.
  cbn zeta. apply execute_plan_never_removes. intros d.
  apply pushed_self_not_removed.
Qed.

Lemma waitingForSync_never_removes :
  emits (Env := Env) (never_removes self) (waitingForSync self).
Proof.
  unfold waitingForSync. step_emits.
  - destruct (negb _); [destruct (fatalError _)|]; step_emits.
  - destruct (synced _); [|destruct (chains _)]; step_emits.
Qed.

Lemma start_never_removes (fuel : nat) (w : World Env) :
  exists issued,
    calls (snd (start self fuel w)) = (calls w ++ issued)%list
    /\ Forall (never_removes self) issued.
Proof.
  assert (Hsetup : emits (Env := Env) (never_removes self) (start_setup self))
    by (unfold start_setup; step_emits; cbn zeta; step_emits).
  unfold start. destruct (Hsetup w) as [i1 [E1 F1]].
  destruct (start_setup self w) as [[[]|e] w1]; cbn [snd] in *;
    [|exists i1; auto].
  destruct (emits_loop _ _ 5000 waitingForSync_never_removes fuel w1)
    as [i2 [E2 F2]].
  destruct (loop fuel (waitingForSync self) 5000 w1) as [[|e|] w2];
    cbn [snd] in *.
  - cbn zeta.
    match goal with |- context [loop fuel (tick self) 5000 ?w'] =>
      set (w3 := w') end.
    assert (Hc : calls w3 = calls w2) by reflexivity.
    destruct (emits_loop _ _ 5000 tick_never_removes fuel w3) as [i3 [E3 F3]].
    exists (i1 ++ i2 ++ i3)%list.
    rewrite E3, Hc, E2, E1, <- !app_assoc. split; [reflexivity|].
    repeat (apply Forall_app; split); assumption.
  - exists (i1 ++ i2)%list. rewrite E2, E1, <- app_assoc.
    split; [reflexivity|]. apply Forall_app. auto.
  - exists (i1 ++ i2)%list. rewrite E2, E1, <- app_assoc.
    split; [reflexivity|]. apply Forall_app. auto.
Qed.

(** C10: once the network subgraph deployment is pushed onto the
    network-desired list, as every tick does before it calls [resolve], it
    is not in [toRemove]; and whatever the collaborators do, no tick, and
    no run of [start] however long, issues a [remove] for a deployment that
    has the [bytes32] of the network subgraph deployment. *)
Theorem self_never_removed :
  (forall epoch maxEpochs N L allocations,
      has_deployment self
        (toRemove (resolve_plan self epoch maxEpochs (Js.push N self) L
                                allocations))
      = false)
  /\ (forall w : World Env, exists issued,
         calls (snd (tick self w)) = (calls w ++ issued)%list
         /\ Forall (never_removes self) issued)
  /\ (forall fuel (w : World Env), exists issued,
         calls (snd (start self fuel w)) = (calls w ++ issued)%list
         /\ Forall (never_removes self) issued).
Proof.
  split; [|split].
  - intros. apply has_deployment_false. rewrite toRemove_keys.
    unfold Js.push. rewrite map_app, in_app_iff. simpl. tauto.
  - exact tick_never_removes.
  - intros fuel w. apply start_never_removes.
Qed.


End StartTheorems.

(** * The plan and the runs on concrete inputs *)

Section Scenarios.
Import Mock.

(** Scenario A: nothing is indexed yet. *)
Example scenario_A :
  let plan := resolve_plan SELF 100 28 [X; SELF] [] [] in
  toDeploy plan = [X; SELF] /\ toRemove plan = [].
Proof. split; reflexivity. Qed.

(** Scenario B: a deployment is no longer wanted; the network subgraph
    deployment is indexed already and still ends up in [toDeploy]. *)
Example scenario_B :
  let plan := resolve_plan SELF 100 28 [SELF] [X; SELF] [] in
  toDeploy plan = [SELF] /\ toRemove plan = [X].
Proof. split; reflexivity. Qed.

(** Scenario C: an allocation created at epoch 50 is too old at epoch 100
    with at most 28 epochs per allocation. *)
Example scenario_C :
  settleAllocationsBeforeEpoch 100 28 = 73
  /\ toSettle (resolve_plan SELF 100 28 [SELF] [] [old_a]) = [old_a].
Proof. split; reflexivity. Qed.

(** Scenario D: a recent allocation is settled when its deployment is below
    both thresholds, and kept when it is above them. *)
Example scenario_D :
  toSettle (resolve_plan SELF 100 28 [SELF] [] [young; worthless])
  = [worthless].
Proof. reflexivity. Qed.

(** Scenario E: an unhealthy status during the sync wait. *)
Example scenario_E :
  fst (start (indexer := indexer []) (network := network) SELF 5
             (start_world (state_with failed_status)))
  = Raised (mkError
              "Failed to index network subgraph deployment '0x5e1f': X").
Proof. reflexivity. Qed.

(** A run of [start] on a synced node: the wait is left at the first poll
    and the ticks go on. *)
Example ready_then_ticking :
  fst (start (indexer := indexer []) (network := network) SELF 3
             (start_world (state_with synced_status)))
  = Running.
Proof. reflexivity. Qed.

(** One tick on a busy node: the gathering calls, then the settlement, then
    the queued tasks. [X] is backed by the allocation being settled, so
    nothing is allocated in this tick; the network subgraph deployment is
    indexed already and is ensured again. *)
Example tick_call_order :
  calls (snd (tick (indexer := indexer []) (network := network) SELF
                   (start_world busy_state)))
  = [CCurrentEpoch; CMaxAllocationEpochs; CSubgraphDeployments;
     CIndexerRules true; CWorthIndexing; CActiveAllocations;
     CSettle old_a;
     CEnsure "indexer-agent/ymentHashX" X;
     CEnsure "indexer-agent/ntHashSelf" SELF;
     CRemove Y].
Proof. reflexivity. Qed.

(** A tick that fails while gathering: the error becomes a warning. *)
Example tick_survives_offline_network :
  tick (indexer := indexer []) (network := offline_network) SELF
       (start_world busy_state)
  = (Ok true,
     mkWorld [mkLog Info "Synchronizing subgraphs" NoMeta;
              mkLog Warn "Synchronization loop failed:"
                    (ErrorMeta "could not detect network")]
             [CCurrentEpoch] [] busy_state).
Proof. reflexivity. Qed.

(** A tick that fails while executing the plan: the settlement reverts,
    nothing is queued, and the error becomes a warning. *)
Example tick_survives_reverted_settlement :
  let r := tick (indexer := indexer []) (network := reverting_network) SELF
                (start_world busy_state) in
  fst r = Ok true
  /\ last (log (snd r)) (mkLog Info "" NoMeta)
     = mkLog Warn "Synchronization loop failed:"
             (ErrorMeta "transaction reverted")
  /\ last (calls (snd r)) CConnect = CSettle old_a.
Proof. repeat split. Qed.

End Scenarios.

(** ** Instances of the theorems that have premises *)

Lemma toSettle_iff_triggered_witness :
  ids_identify [Mock.old_a; Mock.young]
  /\ (In Mock.old_a
         (toSettle (resolve_plan Mock.SELF 100 28 [Mock.SELF] []
                                 [Mock.old_a; Mock.young]))
      <-> In Mock.old_a [Mock.old_a; Mock.young]
          /\ (createdAtEpoch Mock.old_a < 100 - Z.max 1 28 + 1
              \/ (signalAmount (subgraphDeployment Mock.old_a) < MINIMUM_SIGNAL
                  /\ stakedTokens (subgraphDeployment Mock.old_a)
                     < MINIMUM_STAKE))).
Proof.
  assert (H : ids_identify [Mock.old_a; Mock.young]).
  { intros a b [<-|[<-|[]]] [<-|[<-|[]]] E;
      solve [reflexivity | discriminate E]. }
  split; [exact H|].
  exact (proj1 (toSettle_iff_triggered Mock.SELF 100 28 [Mock.SELF] []
                  [Mock.old_a; Mock.young] H Mock.old_a)).
Defined.

Lemma deploy_remove_are_differences_witness :
  let plan := resolve_plan Mock.SELF 100 28 [Mock.X; Mock.SELF] [Mock.Y] [] in
  (forall d, has_deployment d (toDeploy plan)
             = has_deployment d [Mock.X; Mock.SELF]
               && negb (has_deployment d [Mock.Y]))
  /\ (forall d, has_deployment d (toRemove plan)
                = has_deployment d [Mock.Y]
                  && negb (has_deployment d [Mock.X; Mock.SELF]))
  /\ incl (toDeploy plan) [Mock.X; Mock.SELF]
  /\ incl (toRemove plan) [Mock.Y]
  /\ (forall d, has_deployment d (toDeploy plan)
                && has_deployment d (toRemove plan) = false).
Proof.
  apply (deploy_remove_are_differences Mock.SELF 100 28
           [Mock.X; Mock.SELF] [Mock.Y] []).
  - intros d. unfold has_deployment, same_bytes32. simpl.
    destruct (String.eqb_spec (bytes32 d) "0x00a1") as [->|_];
      [reflexivity|].
    destruct (String.eqb_spec (bytes32 d) "0x5e1f") as [->|_];
      [reflexivity|discriminate].
  - reflexivity.
Defined.

Lemma queued_task_errors_stay_unhandled_witness :
  In Mock.refusal
     (unhandled
        (snd (PQueue.onIdle
                (fill_queue (indexer := Mock.indexer [Mock.X]) Mock.stuck_plan)
                (Mock.start_world (Mock.state_with Mock.synced_status))))).
Proof.
  apply (proj1 (proj2 (proj2 (proj2
           (queued_task_errors_stay_unhandled
              (indexer := Mock.indexer [Mock.X]) Mock.stuck_plan
              (Mock.start_world (Mock.state_with Mock.synced_status))))))
           Mock.X Mock.refusal).
  - left. reflexivity.
  - intros s. reflexivity.
Defined.


(** ** Inputs on which a statement of the specification does not hold *)

(** C1, as stated, fails on a list with three entries of one allocation
    id. The second entry is too old and is dropped by
    [uniqueAllocationsOnly], so it is not in [toSettle]; the third is
    recent and worth keeping, and yet its id is in [toSettle]. *)
Lemma toSettle_drops_later_entries_of_an_id :
  toSettle (resolve_plan Mock.SELF 100 28 [Mock.SELF] []
              [Mock.old_a; Mock.old_b; Mock.recent_twin])
  = [Mock.old_a]
  /\ ~ settles_exactly_the_triggered Mock.SELF 100 28 [Mock.SELF] []
        [Mock.old_a; Mock.old_b; Mock.recent_twin]
  /\ ~ settles_exactly_the_triggered_ids Mock.SELF 100 28 [Mock.SELF] []
        [Mock.old_a; Mock.old_b; Mock.recent_twin].
Proof.
  split; [reflexivity|]. split; intros H.
  - specialize (H Mock.old_b (or_intror (or_introl eq_refl))).
    destruct H as [_ H].
    assert (Hin : In Mock.old_b [Mock.old_a]).
    { apply H. left. unfold too_old. vm_compute. reflexivity. }
    destruct Hin as [E|[]]. discriminate E.
  - specialize (H Mock.recent_twin
                  (or_intror (or_intror (or_introl eq_refl)))).
    destruct H as [H _]. specialize (H eq_refl).
    destruct H as [H|[H _]]; vm_compute in H; discriminate H.
Qed.

(** C7, as stated, fails: when the indexing node refuses to remove a
    deployment, the error of the queued remove task is found among the
    unhandled rejections after the queue was drained, and the log holds no
    entry for it. *)
Lemma refused_removal_is_not_caught :
  let w := Mock.start_world (Mock.state_with Mock.synced_status) in
  let w' := snd (PQueue.onIdle
                   (fill_queue (indexer := Mock.indexer [Mock.X])
                               Mock.stuck_plan) w) in
  toRemove Mock.stuck_plan = [Mock.X]
  /\ fst (remove (Indexer := Mock.indexer [Mock.X]) Mock.X (env w))
     = Throw Mock.refusal
  /\ log w' = [begin_indexing Mock.SELF]
  /\ unhandled w' = [Mock.refusal]
  /\ ~ caught_and_logged Mock.refusal w w'.
Proof.
  cbn zeta. repeat split.
  intros [_ H]. apply H. left. reflexivity.
Qed.

(** C8: the code breaks the claim on a status that is healthy and not synced
    but lists no chain: [status.chains[0]!.latestBlock] throws a
    [TypeError], so the poll neither logs the progress nor asks for
    another poll, and the wait is left through that error. *)
Lemma chainless_status_ends_the_wait :
  let w := Mock.start_world (Mock.state_with Mock.chainless_status) in
  health Mock.chainless_status = "healthy"
  /\ synced Mock.chainless_status = false
  /\ ~ polls_again (indexer := Mock.indexer []) Mock.SELF w
  /\ fst (loop 3 (waitingForSync (indexer := Mock.indexer []) Mock.SELF) 5000 w)
     = Raised (mkError "Cannot read property 'latestBlock' of undefined").
Proof.
  cbn zeta. repeat split.
  intros [w' [latest [head [H _]]]]. discriminate H.
Qed.

(** * Further properties of the agent *)

(** ** String slices *)

Lemma substring_whole (s : string) : substring 0 (String.length s) s = s.
Proof. induction s as [|c s IH]; cbn; [reflexivity|rewrite IH; reflexivity]. Qed.

Lemma substring_split (s : string) :
  forall n, (n <= String.length s)%nat ->
            (substring 0 n s ++ substring n (String.length s - n) s)%string = s.
Proof.
  induction s as [|c s IH]; intros n Hn.
  - destruct n; reflexivity.
  - destruct n as [|n]; cbn.
    + rewrite substring_whole. reflexivity.
    + rewrite IH by (cbn in Hn; lia). reflexivity.
Qed.

Lemma substring_suffix (p t : string) :
  substring (String.length p) (String.length t) (p ++ t) = t.
Proof.
  induction p as [|c p IH]; cbn; [apply substring_whole|exact IH].
Qed.

Lemma length_append (a b : string) :
  String.length (a ++ b) = (String.length a + String.length b)%nat.
Proof. induction a as [|c a IH]; cbn; [reflexivity|rewrite IH; reflexivity]. Qed.

Lemma length_substring_prefix (s : string) :
  forall n, (n <= String.length s)%nat -> String.length (substring 0 n s) = n.
Proof.
  induction s as [|c s IH]; intros n Hn.
  - destruct n; [reflexivity|cbn in Hn; lia].
  - destruct n as [|n]; cbn; [reflexivity|].
    rewrite IH by (cbn in Hn; lia). reflexivity.
Qed.

Lemma slice_prefix (s : string) (k : Z) :
  0 <= k ->
  Js.slice s 0 (Some k)
  = substring 0 (Nat.min (Z.to_nat k) (String.length s)) s.
Proof.
  intros Hk. unfold Js.slice, Js.clamp.
  replace (0 <? 0) with false by reflexivity.
  assert (H : (k <? 0) = false) by (apply Z.ltb_ge; assumption).
  rewrite H. rewrite Z.min_l by lia. cbn [Z.to_nat]. f_equal. lia.
Qed.

Lemma slice_rest (s : string) (k : Z) :
  0 <= k ->
  Js.slice s k None
  = substring (Nat.min (Z.to_nat k) (String.length s))
              (String.length s - Nat.min (Z.to_nat k) (String.length s)) s.
Proof.
  intros Hk. unfold Js.slice, Js.clamp.
  assert (H : (k <? 0) = false) by (apply Z.ltb_ge; assumption).
  rewrite H. f_equal; lia.
Qed.

(** X1: cutting a string with [slice(0, k)] and [slice(k)] loses nothing:
    the two slices concatenate to the string, for every [k >= 0]; so the
    name [start] gives the network subgraph deployment is its [ipfsHash]
    with one ["/"] inserted after the first 23 characters (at the end, when
    the hash is shorter). *)
Theorem network_subgraph_name_splits_the_hash (d : SubgraphDeploymentID) :
  (forall (s : string) (k : Z),
      0 <= k -> (Js.slice s 0 (Some k) ++ Js.slice s k None)%string = s)
  /\ exists first rest,
      network_subgraph_name d = (first ++ "/" ++ rest)%string
      /\ (first ++ rest)%string = ipfsHash d
      /\ String.length first = Nat.min 23 (String.length (ipfsHash d)).
Proof.
  assert (Hsplit : forall (s : string) (k : Z),
             0 <= k ->
             (Js.slice s 0 (Some k) ++ Js.slice s k None)%string = s).
  { intros s k Hk. rewrite slice_prefix, slice_rest by assumption.
    apply substring_split. apply Nat.le_min_r. }
  split; [exact Hsplit|].
  exists (Js.slice (ipfsHash d) 0 (Some 23)), (Js.slice (ipfsHash d) 23 None).
  split; [reflexivity|]. split; [apply Hsplit; lia|].
  rewrite slice_prefix by lia.
  rewrite length_substring_prefix by apply Nat.le_min_r. reflexivity.
Qed.

(** X2: the name [resolve] deploys a deployment under only depends on the
    last ten characters of its [ipfsHash]: when the hash ends in the ten
    characters [tail] the name is ["indexer-agent/"] followed by [tail], so
    two deployments whose hashes end alike get the same name; a hash of at
    most ten characters is used whole. *)
Theorem deployment_name_keeps_ten_characters (d : SubgraphDeploymentID) :
  (forall before tail,
      ipfsHash d = (before ++ tail)%string ->
      String.length tail = 10%nat ->
      deployment_name d = ("indexer-agent/" ++ tail)%string)
  /\ ((String.length (ipfsHash d) <= 10)%nat ->
      deployment_name d = ("indexer-agent/" ++ ipfsHash d)%string).
Proof.
  unfold deployment_name, Js.slice, Js.clamp. cbn [Z.ltb Z.compare].
  split.
  - intros before tail E Htail. rewrite E, length_append, Htail. f_equal.
    replace (Z.to_nat (Z.max (Z.of_nat (String.length before + 10) + -10) 0))
      with (String.length before) by lia.
    replace (Z.to_nat (Z.of_nat (String.length before + 10)
                       - Z.max (Z.of_nat (String.length before + 10) + -10) 0))
      with (String.length tail) by lia.
    apply substring_suffix.
  - intros Hshort. f_equal.
    replace (Z.to_nat (Z.max (Z.of_nat (String.length (ipfsHash d)) + -10) 0))
      with 0%nat by lia.
    replace (Z.to_nat (Z.of_nat (String.length (ipfsHash d))
                       - Z.max (Z.of_nat (String.length (ipfsHash d)) + -10) 0))
      with (String.length (ipfsHash d)) by lia.
    apply substring_whole.
Qed.

(** ** The plan, beyond the specification *)

Lemma has_allocation_keys (a : Allocation) (l : list Allocation) :
  has_allocation a l = true <-> In (alloc_id a) (map alloc_id l).
Proof. exact (existsb_key alloc_id a l). Qed.

Section MorePlanTheorems.
Variable self : SubgraphDeploymentID.
Variables epoch maxEpochs : Z.
Variables N L : list SubgraphDeploymentID.
Variable allocations : list Allocation.

(** X3: for every allocation list, also one that repeats allocation ids:
    an entry of [toSettle] is an entry of the list for which a trigger
    fires, and every entry of the list for which a trigger fires has its
    id in [toSettle]. *)
Theorem toSettle_sound_and_complete_by_id :
  (forall a,
      In a (toSettle (resolve_plan self epoch maxEpochs N L allocations)) ->
      In a allocations /\ (too_old epoch maxEpochs a \/ not_worth_it a))
  /\ (forall a,
         In a allocations ->
         too_old epoch maxEpochs a \/ not_worth_it a ->
         has_allocation a
           (toSettle (resolve_plan self epoch maxEpochs N L allocations))
         = true).
Proof.
  split.
  - intros a Ha. apply toSettle_members, keep_first_incl, filter_In in Ha.
    rewrite <- shouldSettle_spec. assumption.
  - intros a Ha Htrigger. apply has_allocation_keys.
    unfold resolve_plan. cbn [toSettle].
    rewrite uniqueAllocationsOnly_keep_first, keep_first_keys.
    split; [|intros []].
    apply in_map, filter_In. split; [assumption|].
    apply shouldSettle_spec. assumption.
Qed.

(** X4: no deployment is settled and allocated to in the same plan: the
    deployment of an allocation of [toSettle] is not in [toAllocate]. An
    allocation that is closed for its age is therefore not reopened before
    a later tick. *)
Theorem settled_deployments_are_not_allocated :
  forall a,
    In a (toSettle (resolve_plan self epoch maxEpochs N L allocations)) ->
    has_deployment (id (subgraphDeployment a))
      (toAllocate (resolve_plan self epoch maxEpochs N L allocations))
    = false.
Proof.
  intros a Ha. apply toSettle_members, keep_first_incl, filter_In in Ha.
  destruct Ha as [Ha _].
  apply has_deployment_false. rewrite toAllocate_keys.
  intros [_ [Hnone _]]. apply Hnone.
  apply (in_map (fun a => bytes32 (id (subgraphDeployment a)))). assumption.
Qed.

(** X5: [toDeploy] and [toRemove] overlap on one deployment at most, the
    network subgraph deployment, and exactly when it is indexed locally
    and missing from the network-desired list: it is then deployed and
    removed in the same pass. When the list contains it, as in every tick,
    the two lists are disjoint, whatever is indexed locally. *)
Theorem deploy_remove_overlap :
  forall d,
    has_deployment d (toDeploy (resolve_plan self epoch maxEpochs N L
                                             allocations))
    && has_deployment d (toRemove (resolve_plan self epoch maxEpochs N L
                                                allocations))
    = same_bytes32 d self && has_deployment self L
      && negb (has_deployment self N).
Proof.
  intros d. apply eq_true_iff_eq.
  rewrite !andb_true_iff, negb_true_iff, has_deployment_false,
    !has_deployment_keys, toDeploy_keys, toRemove_keys.
  unfold same_bytes32. rewrite String.eqb_eq. split.
  - intros [[[_ HnL]|E] [HL HnN]]; [contradiction|].
    rewrite <- E. tauto.
  - intros [[E HL] HnN]. rewrite E. tauto.
Qed.

End MorePlanTheorems.

(** ** Startup and snapshot gathering *)

Section StartupFacts.
Context {Env Rules : Type} {indexer : Indexer Env Rules}
        {network : Network Env Rules}.
Variable self : SubgraphDeploymentID.

Lemma bind_call_run {A B} (c : Call) (f : Env -> Result A * Env)
      (k : A -> M B) (w : World Env) :
  bind (call c f) k w
  = match f (env w) with
    | (Ok a, env') =>
        k a (mkWorld (log w) (calls w ++ [c]) (unhandled w) env')
    | (Throw e, env') =>
        (Throw e, mkWorld (log w) (calls w ++ [c]) (unhandled w) env')
    end.
Proof. unfold bind, call. destruct (f (env w)) as [[a|e] env']; reflexivity. Qed.

Lemma bind_logger_run {B} lvl msg m (k : unit -> M B) (w : World Env) :
  bind (logger lvl msg m) k w
  = k tt (mkWorld (log w ++ [mkLog lvl msg m]) (calls w) (unhandled w) (env w)).
Proof. reflexivity. Qed.

(** The calls of the setup: a beginning of [setup_calls], all of them when
    the setup returns. *)
Lemma start_setup_calls (w : World Env) :
  let r := start_setup self w in
  exists issued rest,
    setup_calls self = (issued ++ rest)%list
    /\ calls (snd r) = (calls w ++ issued)%list
    /\ unhandled (snd r) = unhandled w
    /\ match fst r with
       | Ok _ => rest = []
       | Throw _ => issued <> []
       end.
Proof.
  cbn zeta. unfold start_setup, setup_calls.
  fold (network_subgraph_name self).
  rewrite bind_logger_run, bind_call_run. cbn [env log calls unhandled].
  destruct (connect (env w)) as [[[]|e] env1].
  2:{ exists [CConnect]. eexists. cbn. repeat split. discriminate. }
  rewrite bind_logger_run, bind_call_run. cbn [env log calls unhandled].
  destruct (register env1) as [[[]|e] env2].
  2:{ exists [CConnect; CRegister]. eexists. cbn.
      rewrite <- app_assoc. repeat split. discriminate. }
  rewrite bind_call_run. cbn [env log calls unhandled].
  destruct (ensureMinimumStake (parseGRT 1000) env2) as [[[]|e] env3].
  2:{ exists [CConnect; CRegister; CEnsureMinimumStake (parseGRT 1000)].
      eexists. cbn. rewrite <- !app_assoc. repeat split. discriminate. }
  rewrite bind_logger_run. cbn zeta. rewrite call_run.
  cbn [env log calls unhandled fst snd].
  exists (setup_calls self), []. unfold setup_calls.
  rewrite <- !app_assoc. cbn [app].
  destruct (ensure (network_subgraph_name self) self env3) as [[[]|e] env4];
    cbn [fst snd]; repeat split; discriminate.
Qed.

(** One poll of the sync wait issues one [indexingStatus] call. *)
Lemma waitingForSync_poll (w : World Env) :
  calls (snd (waitingForSync self w))
  = (calls w ++ [CIndexingStatus self])%list
  /\ unhandled (snd (waitingForSync self w)) = unhandled w.
Proof.
  unfold waitingForSync. rewrite bind_logger_run, bind_call_run.
  cbn [env log calls unhandled].
  destruct (indexingStatus self (env w)) as [[status|e] env1];
    [|split; reflexivity].
  unfold bind. destruct (negb _).
  - destruct (fatalError status); split; reflexivity.
  - cbn. destruct (synced status); [split; reflexivity|].
    destruct (chains status); split; reflexivity.
Qed.

Lemma wait_loop_calls (fuel : nat) :
  forall w : World Env,
    let r := loop fuel (waitingForSync self) 5000 w in
    exists polls,
      (polls <= fuel)%nat
      /\ calls (snd r) = (calls w ++ repeat (CIndexingStatus self) polls)%list
      /\ unhandled (snd r) = unhandled w
      /\ (fst r = Running -> polls = fuel).
Proof.
  induction fuel as [|n IH]; intros w; cbn zeta.
  - exists 0%nat. cbn. rewrite app_nil_r. auto.
  - cbn [loop]. destruct (waitingForSync_poll w) as [Hc Hu].
    destruct (waitingForSync self w) as [[[|]|e] w1]; cbn [fst snd] in *.
    + unfold delay, ret. cbn [snd].
      destruct (IH w1) as [polls [Hle [Hc1 [Hu1 Hrun]]]].
      exists (S polls). cbn [repeat].
      rewrite Hc1, Hu1, Hc, Hu, <- app_assoc.
      repeat split; [lia|]. intros H. rewrite (Hrun H). reflexivity.
    + exists 1%nat. repeat split; [lia|assumption|assumption|discriminate].
    + exists 1%nat. repeat split; [lia|assumption|assumption|discriminate].
Qed.



(** X7: the sync wait only polls. Whatever the indexing node answers, a
    wait of at most [fuel] iterations issues one [indexingStatus] call on
    the network subgraph deployment per iteration it ran and no other
    call, and leaves no rejection unhandled; a wait that is still running
    has polled [fuel] times. *)
Theorem sync_wait_only_polls (fuel : nat) (w : World Env) :
  let r := loop fuel (waitingForSync self) 5000 w in
  exists polls,
    (polls <= fuel)%nat
    /\ calls (snd r) = (calls w ++ repeat (CIndexingStatus self) polls)%list
    /\ unhandled (snd r) = unhandled w
    /\ match fst r with
       | Running => polls = fuel
       | _ => (0 < polls)%nat
       end.
Proof.
  cbn zeta. revert w. induction fuel as [|n IH]; intros w.
  - exists 0%nat. cbn. rewrite app_nil_r. auto.
  - cbn [loop]. destruct (waitingForSync_poll w) as [Hc Hu].
    destruct (waitingForSync self w) as [[[|]|e] w1]; cbn [fst snd] in *.
    + unfold delay, ret. cbn [snd].
      destruct (IH w1) as [polls [Hle [Hc1 [Hu1 Hrun]]]].
      exists (S polls). cbn [repeat].
      rewrite Hc1, Hu1, Hc, Hu, <- app_assoc.
      repeat split; [lia|].
      destruct (fst (loop n (waitingForSync self) 5000 w1)); lia.
    + exists 1%nat. repeat split; [lia|assumption|assumption|lia].
    + exists 1%nat. repeat split; [lia|assumption|assumption|lia].
Qed.

(** X8: [start] never returns, and neither does [startAgent], which awaits
    it before it returns the agent: after any number of iterations the run
    is still going or has ended with an error. Once the sync wait was left
    through [break], the run is still going. *)
Theorem start_never_returns
        (Network_create : SubgraphDeploymentID -> Env -> Result unit * Env)
        (fuel : nat) (w : World Env) :
  fst (start self fuel w) <> Broke
  /\ fst (startAgent Network_create self fuel w) <> Broke
  /\ (forall w1 w2,
         start_setup self w = (Ok tt, w1) ->
         loop fuel (waitingForSync self) 5000 w1 = (Broke, w2) ->
         fst (start self fuel w) = Running).
Proof.
  assert (Hstart : forall w0 : World Env, fst (start self fuel w0) <> Broke).
  { intros w0. unfold start.
    destruct (start_setup self w0) as [[[]|e] w1]; [|discriminate].
    destruct (loop fuel (waitingForSync self) 5000 w1) as [[|e|] w2];
      try discriminate.
    rewrite tick_loop_runs. discriminate. }
  split; [apply Hstart|]. split.
  - unfold startAgent.
    destruct (Network_create self (env w)) as [[[]|e] env1];
      [apply Hstart|discriminate].
  - intros w1 w2 Hsetup Hwait. unfold start. rewrite Hsetup, Hwait.
    apply tick_loop_runs.
Qed.

(** X9: [start] fails only during startup. When a run of [start] has ended
    with an error, all it has issued is a beginning of the setup calls
    followed by status polls of the network subgraph deployment: no
    snapshot was read and nothing was settled, allocated or removed. *)
Theorem start_fails_only_during_startup (fuel : nat) (w : World Env)
        (e : JsError) :
  fst (start self fuel w) = Raised e ->
  exists issued rest polls,
    setup_calls self = (issued ++ rest)%list
    /\ calls (snd (start self fuel w))
       = (calls w ++ issued ++ repeat (CIndexingStatus self) polls)%list
    /\ unhandled (snd (start self fuel w)) = unhandled w.
Proof.
  unfold start. destruct (start_setup_calls w) as [issued [rest [E [Hc [Hu _]]]]].
  destruct (start_setup self w) as [[[]|e1] w1]; cbn [fst snd] in *.
  - destruct (wait_loop_calls fuel w1) as [polls [_ [Hc1 [Hu1 _]]]].
    destruct (loop fuel (waitingForSync self) 5000 w1) as [[|e2|] w2];
      cbn [fst snd] in *.
    + rewrite tick_loop_runs. discriminate.
    + intros _. exists issued, rest, polls.
      rewrite Hc1, Hu1, Hc, Hu, <- app_assoc. auto.
    + discriminate.
  - intros _. exists issued, rest, 0%nat. cbn [repeat].
    rewrite app_nil_r. auto.
Qed.


End StartupFacts.

(** * The plan of the first version of the agent *)

Lemma legacy_includes_In (l : list string) (x : string) :
  Legacy.includes l x = true <-> In x l.
Proof.
  unfold Legacy.includes. rewrite existsb_exists. split.
  - intros [y [Hy E]]. apply String.eqb_eq in E. subst y. assumption.
  - intros H. exists x. split; [assumption|apply String.eqb_refl].
Qed.

Lemma legacy_includes_false (l : list string) (x : string) :
  negb (Legacy.includes l x) = true <-> ~ In x l.
Proof.
  rewrite negb_true_iff, <- legacy_includes_In.
  destruct (Legacy.includes l x); split; congruence.
Qed.

Lemma legacy_Set_fold (l : list string) :
  forall acc,
    (forall x, In x (fold_left Legacy.Set_add l acc) <-> In x acc \/ In x l)
    /\ (NoDup acc -> NoDup (fold_left Legacy.Set_add l acc)).
Proof.
  induction l as [|y l IH]; intros acc; cbn [fold_left].
  - split; [intros x; cbn; tauto|auto].
  - destruct (IH (Legacy.Set_add acc y)) as [Hin Hnd].
    assert (Hadd : forall x, In x (Legacy.Set_add acc y) <-> In x acc \/ x = y).
    { intros x. unfold Legacy.Set_add.
      destruct (Legacy.includes acc y) eqn:E.
      - apply legacy_includes_In in E. split; [auto|].
        intros [H|H]; [assumption|subst x; assumption].
      - rewrite in_app_iff. cbn. split; intros [H|H]; auto.
        destruct H as [H|[]]. auto. }
    split.
    + intros x. rewrite Hin, Hadd. cbn. split; intros H; intuition auto.
    + intros Hacc. apply Hnd. unfold Legacy.Set_add.
      destruct (Legacy.includes acc y) eqn:E; [assumption|].
      apply NoDup_app; [assumption|repeat constructor; cbn; tauto|].
      intros x Hx [<-|[]]. apply legacy_includes_In in Hx. congruence.
Qed.

Lemma legacy_new_Set_In (l : list string) (x : string) :
  In x (Legacy.new_Set l) <-> In x l.
Proof.
  unfold Legacy.new_Set. rewrite (proj1 (legacy_Set_fold l [])). cbn. tauto.
Qed.

Lemma legacy_new_Set_NoDup (l : list string) : NoDup (Legacy.new_Set l).
Proof. apply (proj2 (legacy_Set_fold l [])). constructor. Qed.

Lemma legacy_toRemove_In (N L : list string) (s : string) :
  In s (Legacy.toRemove N L) <-> In s L /\ ~ In s N.
Proof.
  unfold Legacy.toRemove.
  rewrite legacy_new_Set_In, filter_In, legacy_includes_false. tauto.
Qed.

(** X11: in the first version, the [Set] to deploy is the listed subgraphs
    that are not indexed and the [Set] to remove is the indexed subgraphs
    that are not listed, under string equality; neither holds a subgraph
    twice, whatever the inputs repeat, and no subgraph is in both. A
    subgraph appended to the listed ones, as the polling loop appends the
    network subgraph deployment, is not in the [Set] to remove. *)
Theorem legacy_sets_are_differences (N L : list string) :
  (forall s, In s (Legacy.toDeploy N L) <-> In s N /\ ~ In s L)
  /\ (forall s, In s (Legacy.toRemove N L) <-> In s L /\ ~ In s N)
  /\ NoDup (Legacy.toDeploy N L)
  /\ NoDup (Legacy.toRemove N L)
  /\ (forall s, ~ (In s (Legacy.toDeploy N L) /\ In s (Legacy.toRemove N L)))
  /\ (forall self, ~ In self (Legacy.toRemove (N ++ [self]) L)).
Proof.
  assert (HD : forall s, In s (Legacy.toDeploy N L) <-> In s N /\ ~ In s L).
  { intros s. unfold Legacy.toDeploy.
    rewrite legacy_new_Set_In, filter_In, legacy_includes_false. tauto. }
  split; [exact HD|]. split; [apply legacy_toRemove_In|].
  split; [apply legacy_new_Set_NoDup|]. split; [apply legacy_new_Set_NoDup|].
  split.
  - intros s [H1 H2]. apply HD in H1. apply legacy_toRemove_In in H2. tauto.
  - intros self H. apply legacy_toRemove_In in H. destruct H as [_ H].
    apply H. apply in_or_app. right. left. reflexivity.
Qed.

(** * The registry of pending queries *)

Module QP := QueryProcessor.

Lemma qp_has_In (id : string) (qs : list QP.PendingQuery) :
  QP.has id qs = true <-> In id (map QP.pending_paymentId qs).
Proof.
  unfold QP.has. rewrite existsb_exists, in_map_iff. split.
  - intros [e [He E]]. apply String.eqb_eq in E. exists e. auto.
  - intros [e [E He]]. exists e. split; [assumption|].
    apply String.eqb_eq. assumption.
Qed.

Lemma qp_has_false (id : string) (qs : list QP.PendingQuery) :
  QP.has id qs = false <-> ~ In id (map QP.pending_paymentId qs).
Proof.
  rewrite <- qp_has_In. destruct (QP.has id qs); split; congruence.
Qed.

Lemma qp_get_Some (id : string) (qs : list QP.PendingQuery) e :
  QP.get id qs = Some e -> In e qs /\ QP.pending_paymentId e = id.
Proof.
  unfold QP.get. intros H. apply find_some in H. destruct H as [H E].
  apply String.eqb_eq in E. auto.
Qed.

Lemma qp_get_None (id : string) (qs : list QP.PendingQuery) :
  QP.get id qs = None <-> QP.has id qs = false.
Proof.
  unfold QP.get, QP.has. induction qs as [|e r IH]; cbn; [tauto|].
  destruct (String.eqb (QP.pending_paymentId e) id); cbn;
    [split; discriminate|exact IH].
Qed.

Lemma qp_get_app_new (id : string) (qs : list QP.PendingQuery) e :
  QP.has id qs = false -> QP.pending_paymentId e = id ->
  QP.get id (qs ++ [e]) = Some e.
Proof.
  unfold QP.get, QP.has. intros Hno E.
  induction qs as [|x r IH]; cbn in *.
  - rewrite E, String.eqb_refl. reflexivity.
  - destruct (String.eqb (QP.pending_paymentId x) id); cbn in *;
      [discriminate|auto].
Qed.

Lemma qp_get_update (id : string) (f : QP.PendingQuery -> QP.PendingQuery)
      (qs : list QP.PendingQuery) :
  (forall e, QP.pending_paymentId (f e) = QP.pending_paymentId e) ->
  QP.get id (QP.update id f qs) = option_map f (QP.get id qs).
Proof.
  intros Hf. unfold QP.get, QP.update.
  induction qs as [|x r IH]; cbn; [reflexivity|].
  destruct (String.eqb (QP.pending_paymentId x) id) eqn:E; cbn.
  - rewrite Hf, E. reflexivity.
  - rewrite E. exact IH.
Qed.

Lemma qp_update_ids (id : string) (f : QP.PendingQuery -> QP.PendingQuery)
      (qs : list QP.PendingQuery) :
  (forall e, QP.pending_paymentId (f e) = QP.pending_paymentId e) ->
  map QP.pending_paymentId (QP.update id f qs) = map QP.pending_paymentId qs.
Proof.
  intros Hf. unfold QP.update. rewrite map_map. apply map_ext.
  intros e. destruct (String.eqb _ id); [apply Hf|reflexivity].
Qed.

Lemma qp_delete_absent (id : string) (qs : list QP.PendingQuery) :
  QP.has id qs = false -> QP.delete id qs = qs.
Proof.
  unfold QP.has, QP.delete. induction qs as [|x r IH]; cbn; [reflexivity|].
  destruct (String.eqb (QP.pending_paymentId x) id); cbn;
    [discriminate|]. intros H. rewrite IH by assumption. reflexivity.
Qed.

Lemma qp_delete_app_new (id : string) (qs : list QP.PendingQuery) e :
  QP.has id qs = false -> QP.pending_paymentId e = id ->
  QP.delete id (qs ++ [e]) = qs.
Proof.
  intros Hno E. unfold QP.delete. rewrite filter_app. cbn.
  rewrite E, String.eqb_refl. cbn. rewrite app_nil_r.
  apply qp_delete_absent. assumption.
Qed.

Lemma qp_filter_ids_NoDup (p : QP.PendingQuery -> bool)
      (qs : list QP.PendingQuery) :
  NoDup (map QP.pending_paymentId qs) ->
  NoDup (map QP.pending_paymentId (filter p qs)).
Proof. apply (filter_keys_NoDup QP.pending_paymentId). Qed.

Lemma qp_listen_length (em caller : nat) (ls : list (list nat)) :
  List.length (QP.listen em caller ls) = List.length ls.
Proof.
  revert em. induction ls as [|l r IH]; intros em; [destruct em; reflexivity|].
  destruct em; cbn; [reflexivity|rewrite IH; reflexivity].
Qed.

Lemma qp_listening_listen (em caller : nat) (ls : list (list nat)) :
  (em < List.length ls)%nat ->
  QP.listening em (QP.listen em caller ls)
  = (QP.listening em ls ++ [caller])%list.
Proof.
  unfold QP.listening. revert em.
  induction ls as [|l r IH]; intros em H; [cbn in H; lia|].
  destruct em; cbn; [reflexivity|]. apply IH. cbn in H. lia.
Qed.

Lemma qp_listening_new (ls : list (list nat)) :
  QP.listening (List.length ls) (ls ++ [[]]) = [].
Proof.
  unfold QP.listening. rewrite app_nth2 by lia.
  rewrite Nat.sub_diag. reflexivity.
Qed.

(** Without ill-formed entries a cleanup pass is a filter. *)
Lemma qp_sweep_filter (now : Z) (ls : list (list nat))
      (qs : list QP.PendingQuery) :
  (forall e, In e qs ->
             QP.pending_query e <> None \/ QP.pending_payment e <> None) ->
  QP.sweep now ls qs
  = (None,
     flat_map (QP.expire ls) (filter (QP.stale now) qs),
     filter (fun e => negb (QP.stale now e)) qs).
Proof.
  induction qs as [|e r IH]; intros Hwf; [reflexivity|].
  cbn [QP.sweep filter flat_map].
  rewrite IH by (intros x Hx; apply Hwf; right; assumption).
  destruct (QP.stale now e); cbn [negb]; [|reflexivity].
  cbn [flat_map]. unfold QP.expire.
  destruct (QP.pending_payment e) as [p|] eqn:Ep; [reflexivity|].
  destruct (QP.pending_query e) as [q|] eqn:Eq; [reflexivity|].
  destruct (Hwf e (or_introl eq_refl)); congruence.
Qed.

Section RegistryFacts.
Variable stateChannelForSubgraph : string -> option QP.StateChannel.

Local Abbreviation processQueryIfReady :=
  (QP.processQueryIfReady stateChannelForSubgraph).

Lemma qp_processQueryIfReady_wf (caller : nat) (id : string) (st : QP.State) :
  QP.well_formed st ->
  QP.well_formed (QP.after (processQueryIfReady caller id st)).
Proof.
  intros [Hnd [Hqp Hem]]. unfold QP.processQueryIfReady.
  destruct (QP.get id (QP.queries st)) as [entry|]; [|repeat split; assumption].
  assert (Hkeep : QP.well_formed
                    (QP.mkState (QP.queries st)
                       (QP.listen (QP.emitter entry) caller (QP.listeners st)))).
  { repeat split; cbn; try assumption.
    intros e He. rewrite qp_listen_length. apply Hem. assumption. }
  destruct (QP.pending_payment entry) as [p|]; [|exact Hkeep].
  destruct (QP.pending_query entry) as [q|]; [|exact Hkeep].
  unfold QP.processNow. destruct (stateChannelForSubgraph _); [|exact Hkeep].
  cbn. repeat split; cbn.
  - apply qp_filter_ids_NoDup. assumption.
  - intros e He. apply filter_In in He. apply Hqp. tauto.
  - intros e He. apply filter_In in He. rewrite qp_listen_length.
    apply Hem. tauto.
Qed.

Lemma qp_update_wf (id : string) (f : QP.PendingQuery -> QP.PendingQuery)
      (st : QP.State) :
  (forall e, QP.pending_paymentId (f e) = QP.pending_paymentId e) ->
  (forall e, QP.emitter (f e) = QP.emitter e) ->
  (forall e, QP.pending_query (f e) <> None \/ QP.pending_payment (f e) <> None) ->
  QP.well_formed st ->
  QP.well_formed (QP.mkState (QP.update id f (QP.queries st)) (QP.listeners st)).
Proof.
  intros Hid Hemit Hfull [Hnd [Hqp Hem]]. repeat split; cbn.
  - rewrite qp_update_ids by assumption. assumption.
  - intros e He. unfold QP.update in He. apply in_map_iff in He.
    destruct He as [x [<- Hx]].
    destruct (String.eqb _ id); [apply Hfull|apply Hqp; assumption].
  - intros e He. unfold QP.update in He. apply in_map_iff in He.
    destruct He as [x [<- Hx]].
    destruct (String.eqb _ id); [rewrite Hemit|]; apply Hem; assumption.
Qed.

Lemma qp_append_wf (e : QP.PendingQuery) (st : QP.State) :
  QP.has (QP.pending_paymentId e) (QP.queries st) = false ->
  QP.pending_query e <> None \/ QP.pending_payment e <> None ->
  QP.emitter e = List.length (QP.listeners st) ->
  QP.well_formed st ->
  QP.well_formed (QP.mkState (QP.queries st ++ [e]) (QP.listeners st ++ [[]])).
Proof.
  intros Hno Hfull Hemit [Hnd [Hqp Hem]]. repeat split; cbn.
  - rewrite map_app. cbn. apply NoDup_app; [assumption|repeat constructor; cbn; tauto|].
    intros x Hx [<-|[]]. apply qp_has_false in Hno. contradiction.
  - intros x Hx. apply in_app_or in Hx.
    destruct Hx as [Hx|[<-|[]]]; [apply Hqp|]; assumption.
  - intros x Hx. rewrite length_app. cbn. apply in_app_or in Hx.
    destruct Hx as [Hx|[<-|[]]]; [specialize (Hem x Hx)|]; lia.
Qed.

(** X12: the registry stays a [Map] of entries that hold a query or a
    payment. From a state in which the payment ids are distinct, every
    entry holds a query or a payment, and every emitter exists,
    [addPaidQuery], [addPayment] and a cleanup pass lead to such a state
    again; and there [addPayment] and the cleanup pass do not throw: the
    entry [processQueryIfReady] looks up is found, and the non-null
    assertion [query.query!] of the cleanup holds. *)
Theorem registry_stays_well_formed (now : Z) (caller : nat)
        (q : QP.PaidQuery) (channel : QP.StateChannel)
        (p : QP.ConditionalPayment) (st : QP.State) :
  QP.well_formed st ->
  QP.well_formed
    (QP.after (QP.addPaidQuery stateChannelForSubgraph now caller q st))
  /\ QP.well_formed
       (QP.after (QP.addPayment stateChannelForSubgraph now caller channel p st))
  /\ QP.well_formed (QP.after (QP.cleanup now st))
  /\ QP.thrown (QP.addPayment stateChannelForSubgraph now caller channel p st)
     = None
  /\ QP.thrown (QP.cleanup now st) = None.
Proof.
  intros Hwf. split; [|split; [|split; [|split]]].
  - unfold QP.addPaidQuery.
    destruct (QP.has (QP.paymentId q) (QP.queries st)) eqn:Ehas.
    + destruct (QP.get (QP.paymentId q) (QP.queries st)) as [e0|];
        [|exact Hwf].
      destruct (QP.pending_query e0); [exact Hwf|].
      apply qp_processQueryIfReady_wf, qp_update_wf; cbn; auto.
      intros e. left. discriminate.
    + apply qp_processQueryIfReady_wf, qp_append_wf; cbn; auto.
      left. discriminate.
  - unfold QP.addPayment. cbn zeta.
    destruct (QP.has (QP.payment_paymentId p) (QP.queries st)) eqn:Ehas.
    + apply qp_processQueryIfReady_wf, qp_update_wf; cbn; auto.
      intros e. right. discriminate.
    + apply qp_processQueryIfReady_wf, qp_append_wf; cbn; auto.
      right. discriminate.
  - unfold QP.cleanup. destruct Hwf as [Hnd [Hqp Hem]].
    rewrite qp_sweep_filter by assumption. repeat split; cbn.
    + apply qp_filter_ids_NoDup. assumption.
    + intros e He. apply filter_In in He. apply Hqp. tauto.
    + intros e He. apply filter_In in He. apply Hem. tauto.
  - unfold QP.addPayment. cbn zeta.
    destruct (QP.has (QP.payment_paymentId p) (QP.queries st)) eqn:Ehas;
      unfold QP.processQueryIfReady; cbn [QP.queries].
    + rewrite qp_get_update by reflexivity.
      destruct (QP.get (QP.payment_paymentId p) (QP.queries st)) eqn:Eget.
      * cbn. destruct (QP.pending_query p0); [|reflexivity].
        destruct (QP.processNow _ _ _ _). reflexivity.
      * apply qp_get_None in Eget. congruence.
    + rewrite qp_get_app_new by (cbn; auto). cbn. reflexivity.
  - unfold QP.cleanup. destruct Hwf as [Hnd [Hqp Hem]].
    rewrite qp_sweep_filter by assumption. reflexivity.
Qed.

End RegistryFacts.

Lemma qp_update_absent (id : string) (f : QP.PendingQuery -> QP.PendingQuery)
      (qs : list QP.PendingQuery) :
  QP.has id qs = false -> QP.update id f qs = qs.
Proof.
  unfold QP.has, QP.update. induction qs as [|x r IH]; cbn; [reflexivity|].
  destruct (String.eqb (QP.pending_paymentId x) id); cbn; [discriminate|].
  intros H. rewrite IH by assumption. reflexivity.
Qed.

Lemma qp_update_app_new (id : string) (f : QP.PendingQuery -> QP.PendingQuery)
      (qs : list QP.PendingQuery) e :
  QP.has id qs = false -> QP.pending_paymentId e = id ->
  QP.update id f (qs ++ [e]) = (qs ++ [f e])%list.
Proof.
  intros Hno E. unfold QP.update. rewrite map_app. cbn.
  rewrite E, String.eqb_refl. f_equal.
  apply (qp_update_absent id f qs Hno).
Qed.

Lemma qp_has_app_new (id : string) (qs : list QP.PendingQuery) e :
  QP.pending_paymentId e = id -> QP.has id (qs ++ [e]) = true.
Proof.
  intros E. unfold QP.has. rewrite existsb_app. cbn.
  rewrite E, String.eqb_refl. apply orb_true_iff. right. reflexivity.
Qed.

Lemma qp_two_listeners (ls : list (list nat)) (c1 c2 : nat) :
  QP.listening (List.length ls)
    (QP.listen (List.length ls) c2
       (QP.listen (List.length ls) c1 (ls ++ [[]])))
  = [c1; c2].
Proof.
  rewrite qp_listening_listen
    by (rewrite qp_listen_length, length_app; cbn; lia).
  rewrite qp_listening_listen by (rewrite length_app; cbn; lia).
  rewrite qp_listening_new. reflexivity.
Qed.

Section RegistryTheorems.
Variable stateChannelForSubgraph : string -> option QP.StateChannel.


(** X13: a second query for a payment id is refused and a second payment
    is not. When the entry of the payment id holds a query already,
    [addPaidQuery] throws the duplicate-query error and changes nothing.
    When the entry holds no query yet, [addPayment] does not throw: the
    entry gets the new payment, whether or not it held one, and the new
    time. *)
Theorem duplicate_query_refused_payment_replaced (now : Z) (caller : nat)
        (q : QP.PaidQuery) (channel : QP.StateChannel)
        (p : QP.ConditionalPayment) (st : QP.State) (e0 : QP.PendingQuery) :
  (QP.get (QP.paymentId q) (QP.queries st) = Some e0 ->
   QP.pending_query e0 <> None ->
   QP.addPaidQuery stateChannelForSubgraph now caller q st
   = QP.mkStep
       (Some (QP.mkQueryError
                ("Duplicate query for subgraph '" ++ QP.subgraphId q
                   ++ "' and payment '" ++ QP.paymentId q ++ "'")
                None))
       [] st)
  /\ (QP.get (QP.payment_paymentId p) (QP.queries st) = Some e0 ->
      QP.pending_query e0 = None ->
      let s := QP.addPayment stateChannelForSubgraph now caller channel p st in
      QP.thrown s = None
      /\ QP.events s = []
      /\ QP.get (QP.payment_paymentId p) (QP.queries (QP.after s))
         = Some (QP.mkPending (QP.pending_paymentId e0) None
                   (Some (QP.mkSubgraphPayment p (QP.subgraph channel)))
                   now (QP.emitter e0))).
Proof.
  split.
  - intros Hget Hq. unfold QP.addPaidQuery.
    assert (Hhas : QP.has (QP.paymentId q) (QP.queries st) = true).
    { destruct (QP.has _ _) eqn:E; [reflexivity|].
      apply qp_get_None in E. congruence. }
    rewrite Hhas, Hget. destruct (QP.pending_query e0); [reflexivity|].
    congruence.
  - intros Hget Hq. cbn zeta. unfold QP.addPayment. cbn zeta.
    assert (Hhas : QP.has (QP.payment_paymentId p) (QP.queries st) = true).
    { destruct (QP.has _ _) eqn:E; [reflexivity|].
      apply qp_get_None in E. congruence. }
    rewrite Hhas. unfold QP.processQueryIfReady. cbn [QP.queries].
    rewrite qp_get_update by reflexivity. rewrite Hget.
    cbn [option_map QP.pending_payment QP.pending_query QP.emitter].
    rewrite Hq. cbn [QP.thrown QP.events QP.after QP.queries].
    split; [reflexivity|]. split; [reflexivity|].
    rewrite qp_get_update by reflexivity. rewrite Hget.
    cbn [option_map]. rewrite Hq. reflexivity.
Qed.

(** The first of the two calls for a payment id that is not pending. *)
Lemma qp_first_call (caller : nat) (id : string) (st : QP.State)
      (e : QP.PendingQuery) :
  QP.pending_paymentId e = id ->
  QP.has id (QP.queries st) = false ->
  QP.ready e = false ->
  QP.emitter e = List.length (QP.listeners st) ->
  QP.processQueryIfReady stateChannelForSubgraph caller id
    (QP.mkState (QP.queries st ++ [e]) (QP.listeners st ++ [[]]))
  = QP.mkStep None []
      (QP.mkState (QP.queries st ++ [e])
         (QP.listen (List.length (QP.listeners st)) caller
                    (QP.listeners st ++ [[]]))).
Proof.
  intros E Hno Hready Hem. unfold QP.processQueryIfReady. cbn [QP.queries].
  rewrite qp_get_app_new by auto. unfold QP.ready in Hready.
  destruct (QP.pending_payment e), (QP.pending_query e);
    try discriminate; cbn [QP.queries QP.listeners]; rewrite Hem; reflexivity.
Qed.

(** The second of the two calls, on the completed entry [e]. *)
Lemma qp_second_call (caller : nat) (id : string)
      (qs : list QP.PendingQuery) (ls : list (list nat))
      (e : QP.PendingQuery) (q : QP.PaidQuery)
      (p : QP.ConditionalSubgraphPayment) :
  QP.pending_paymentId e = id ->
  QP.has id qs = false ->
  QP.pending_query e = Some q ->
  QP.pending_payment e = Some p ->
  QP.processQueryIfReady stateChannelForSubgraph caller id
    (QP.mkState (qs ++ [e]) ls)
  = match stateChannelForSubgraph (QP.subgraphId q) with
    | Some _ =>
        QP.mkStep None [QP.Processing e]
          (QP.mkState qs (QP.listen (QP.emitter e) caller ls))
    | None =>
        QP.mkStep None
          [QP.Rejected (QP.listening (QP.emitter e) ls)
             (QP.mkQueryError ("Unknown subgraph: " ++ QP.subgraphId q)
                              (Some 404))]
          (QP.mkState (qs ++ [e]) (QP.listen (QP.emitter e) caller ls))
    end.
Proof.
  intros E Hno Hq Hp. unfold QP.processQueryIfReady. cbn [QP.queries].
  rewrite qp_get_app_new by auto. rewrite Hp, Hq. unfold QP.processNow.
  rewrite E.
  destruct (stateChannelForSubgraph (QP.subgraphId q));
    cbn [QP.queries QP.listeners]; [|reflexivity].
  rewrite qp_delete_app_new by auto. reflexivity.
Qed.

Lemma qp_addPaidQuery_new (t : Z) (c : nat) (q : QP.PaidQuery) (st : QP.State) :
  QP.has (QP.paymentId q) (QP.queries st) = false ->
  QP.addPaidQuery stateChannelForSubgraph t c q st
  = QP.mkStep None []
      (QP.mkState
         (QP.queries st
            ++ [QP.mkPending (QP.paymentId q) (Some q) None t
                             (List.length (QP.listeners st))])
         (QP.listen (List.length (QP.listeners st)) c
                    (QP.listeners st ++ [[]]))).
Proof.
  intros Hnew. unfold QP.addPaidQuery. rewrite Hnew.
  apply qp_first_call; auto.
Qed.

Lemma qp_addPayment_new (t : Z) (c : nat) (channel : QP.StateChannel)
      (p : QP.ConditionalPayment) (st : QP.State) :
  QP.has (QP.payment_paymentId p) (QP.queries st) = false ->
  QP.addPayment stateChannelForSubgraph t c channel p st
  = QP.mkStep None []
      (QP.mkState
         (QP.queries st
            ++ [QP.mkPending (QP.payment_paymentId p) None
                  (Some (QP.mkSubgraphPayment p (QP.subgraph channel))) t
                  (List.length (QP.listeners st))])
         (QP.listen (List.length (QP.listeners st)) c
                    (QP.listeners st ++ [[]]))).
Proof.
  intros Hnew. unfold QP.addPayment. cbn zeta. rewrite Hnew.
  apply qp_first_call; auto.
Qed.

(** The payment arrives for the query that waits at the end of the
    registry. *)
Lemma qp_addPayment_completes (t1 t2 : Z) (c : nat) (em : nat)
      (channel : QP.StateChannel) (p : QP.ConditionalPayment)
      (q : QP.PaidQuery) (qs : list QP.PendingQuery) (ls : list (list nat)) :
  QP.has (QP.paymentId q) qs = false ->
  QP.payment_paymentId p = QP.paymentId q ->
  let entry :=
    QP.mkPending (QP.paymentId q) (Some q)
      (Some (QP.mkSubgraphPayment p (QP.subgraph channel))) t2 em in
  QP.addPayment stateChannelForSubgraph t2 c channel p
    (QP.mkState (qs ++ [QP.mkPending (QP.paymentId q) (Some q) None t1 em]) ls)
  = match stateChannelForSubgraph (QP.subgraphId q) with
    | Some _ =>
        QP.mkStep None [QP.Processing entry]
          (QP.mkState qs (QP.listen em c ls))
    | None =>
        QP.mkStep None
          [QP.Rejected (QP.listening em ls)
             (QP.mkQueryError ("Unknown subgraph: " ++ QP.subgraphId q)
                              (Some 404))]
          (QP.mkState (qs ++ [entry]) (QP.listen em c ls))
    end.
Proof.
  intros Hnew Hid entry. unfold QP.addPayment. cbn zeta.
  cbn [QP.queries QP.listeners].
  rewrite Hid, qp_has_app_new by reflexivity.
  rewrite qp_update_app_new by auto.
  cbn [QP.pending_paymentId QP.pending_query QP.emitter].
  exact (qp_second_call c (QP.paymentId q) qs ls entry q _
           eq_refl Hnew eq_refl eq_refl).
Qed.

(** The query arrives for the payment that waits at the end of the
    registry. *)
Lemma qp_addPaidQuery_completes (t1 t2 : Z) (c : nat) (em : nat)
      (paid : QP.ConditionalSubgraphPayment)
      (q : QP.PaidQuery) (qs : list QP.PendingQuery) (ls : list (list nat)) :
  QP.has (QP.paymentId q) qs = false ->
  let entry := QP.mkPending (QP.paymentId q) (Some q) (Some paid) t2 em in
  QP.addPaidQuery stateChannelForSubgraph t2 c q
    (QP.mkState (qs ++ [QP.mkPending (QP.paymentId q) None (Some paid) t1 em])
                ls)
  = match stateChannelForSubgraph (QP.subgraphId q) with
    | Some _ =>
        QP.mkStep None [QP.Processing entry]
          (QP.mkState qs (QP.listen em c ls))
    | None =>
        QP.mkStep None
          [QP.Rejected (QP.listening em ls)
             (QP.mkQueryError ("Unknown subgraph: " ++ QP.subgraphId q)
                              (Some 404))]
          (QP.mkState (qs ++ [entry]) (QP.listen em c ls))
    end.
Proof.
  intros Hnew entry. unfold QP.addPaidQuery. cbn [QP.queries QP.listeners].
  rewrite qp_has_app_new by reflexivity.
  rewrite qp_get_app_new by auto. cbn [QP.pending_query].
  rewrite qp_update_app_new by auto.
  cbn [QP.pending_paymentId QP.pending_payment QP.emitter].
  exact (qp_second_call c (QP.paymentId q) qs ls entry q paid
           eq_refl Hnew eq_refl eq_refl).
Qed.

(** X14: a query and its payment pair up in either order. For a payment id
    that is not pending, on a subgraph with a state channel: the first
    call, [addPaidQuery] or [addPayment], emits nothing and leaves one
    entry; the second call starts the processing of the entry, which then
    holds the query and the payment, and removes it, so that the registry
    is as it was before the two calls; the promises of both calls listen
    on the emitter of the entry. *)
Theorem query_and_payment_pair_up (t1 t2 : Z) (c1 c2 : nat)
        (q : QP.PaidQuery) (channel : QP.StateChannel)
        (p : QP.ConditionalPayment) (st : QP.State)
        (known : QP.StateChannel) :
  QP.has (QP.paymentId q) (QP.queries st) = false ->
  QP.payment_paymentId p = QP.paymentId q ->
  stateChannelForSubgraph (QP.subgraphId q) = Some known ->
  let em := List.length (QP.listeners st) in
  let paid := QP.mkSubgraphPayment p (QP.subgraph channel) in
  let entry := QP.mkPending (QP.paymentId q) (Some q) (Some paid) t2 em in
  (let s1 := QP.addPaidQuery stateChannelForSubgraph t1 c1 q st in
   let s2 := QP.addPayment stateChannelForSubgraph t2 c2 channel p
                           (QP.after s1) in
   QP.thrown s1 = None /\ QP.events s1 = []
   /\ QP.thrown s2 = None /\ QP.events s2 = [QP.Processing entry]
   /\ QP.queries (QP.after s2) = QP.queries st
   /\ QP.listening em (QP.listeners (QP.after s2)) = [c1; c2])
  /\ (let s1 := QP.addPayment stateChannelForSubgraph t1 c1 channel p st in
      let s2 := QP.addPaidQuery stateChannelForSubgraph t2 c2 q
                                (QP.after s1) in
      QP.thrown s1 = None /\ QP.events s1 = []
      /\ QP.thrown s2 = None /\ QP.events s2 = [QP.Processing entry]
      /\ QP.queries (QP.after s2) = QP.queries st
      /\ QP.listening em (QP.listeners (QP.after s2)) = [c1; c2]).
Proof.
  intros Hnew Hid Hknown. cbn zeta. split.
  - rewrite qp_addPaidQuery_new by assumption.
    cbn [QP.thrown QP.events QP.after].
    rewrite (qp_addPayment_completes t1 t2 c2 _ channel p q) by assumption.
    rewrite Hknown. cbn [QP.thrown QP.events QP.after QP.queries QP.listeners].
    rewrite qp_two_listeners. repeat split.
  - assert (Hnew' : QP.has (QP.payment_paymentId p) (QP.queries st) = false)
      by (rewrite Hid; assumption).
    rewrite qp_addPayment_new by assumption. rewrite Hid.
    cbn [QP.thrown QP.events QP.after].
    rewrite (qp_addPaidQuery_completes t1 t2 c2) by assumption.
    rewrite Hknown. cbn [QP.thrown QP.events QP.after QP.queries QP.listeners].
    rewrite qp_two_listeners. repeat split.
Qed.

(** X15: when the pair completes for a subgraph without state channel,
    only the earlier caller learns of it. The second call emits one
    rejection, ["Unknown subgraph"] with status 404, to the promise of the
    first call alone, since its own promise listens only afterwards; the
    entry stays in the registry, holding the query and the payment, with
    both promises listening. The first cleanup pass after more than ten
    seconds removes the entry and emits the payment-timed-out rejection
    to both promises, of which the first was rejected before. *)
Theorem unknown_subgraph_leaves_entry_pending (t1 t2 now : Z) (c1 c2 : nat)
        (q : QP.PaidQuery) (channel : QP.StateChannel)
        (p : QP.ConditionalPayment) (st : QP.State) :
  QP.well_formed st ->
  QP.has (QP.paymentId q) (QP.queries st) = false ->
  QP.payment_paymentId p = QP.paymentId q ->
  stateChannelForSubgraph (QP.subgraphId q) = None ->
  10000 < now - t2 ->
  let em := List.length (QP.listeners st) in
  let paid := QP.mkSubgraphPayment p (QP.subgraph channel) in
  let entry := QP.mkPending (QP.paymentId q) (Some q) (Some paid) t2 em in
  let s1 := QP.addPaidQuery stateChannelForSubgraph t1 c1 q st in
  let s2 := QP.addPayment stateChannelForSubgraph t2 c2 channel p
                          (QP.after s1) in
  let s3 := QP.cleanup now (QP.after s2) in
  QP.thrown s2 = None
  /\ QP.events s2
     = [QP.Rejected [c1]
          (QP.mkQueryError ("Unknown subgraph: " ++ QP.subgraphId q)
                           (Some 404))]
  /\ QP.get (QP.paymentId q) (QP.queries (QP.after s2)) = Some entry
  /\ QP.listening em (QP.listeners (QP.after s2)) = [c1; c2]
  /\ In (QP.Rejected [c1; c2]
           (QP.mkQueryError ("Payment '" ++ QP.paymentId q
                               ++ "' timed out waiting for query") None))
        (QP.events s3)
  /\ QP.has (QP.paymentId q) (QP.queries (QP.after s3)) = false.
Proof.
  intros [Hnd [Hqp Hem]] Hnew Hid Hunknown Hlate. cbn zeta.
  rewrite qp_addPaidQuery_new by assumption.
  cbn [QP.thrown QP.events QP.after].
  rewrite (qp_addPayment_completes t1 t2 c2 _ channel p q) by assumption.
  rewrite Hunknown.
  cbn [QP.thrown QP.events QP.after QP.queries QP.listeners QP.emitter].
  assert (Hfirst : QP.listening (List.length (QP.listeners st))
                     (QP.listen (List.length (QP.listeners st)) c1
                                (QP.listeners st ++ [[]])) = [c1]).
  { rewrite qp_listening_listen by (rewrite length_app; cbn; lia).
    rewrite qp_listening_new. reflexivity. }
  rewrite Hfirst, qp_two_listeners.
  split; [reflexivity|]. split; [reflexivity|].
  split; [apply qp_get_app_new; cbn; auto|]. split; [reflexivity|].
  unfold QP.cleanup. cbn [QP.queries QP.listeners].
  rewrite qp_sweep_filter.
  2:{ intros e He. apply in_app_or in He.
      destruct He as [He|[<-|[]]]; [apply Hqp; assumption|].
      left. discriminate. }
  cbn [QP.events QP.after QP.queries]. split.
  - apply in_flat_map.
    exists (QP.mkPending (QP.paymentId q) (Some q)
              (Some (QP.mkSubgraphPayment p (QP.subgraph channel))) t2
              (List.length (QP.listeners st))).
    split.
    + apply filter_In. split; [apply in_or_app; right; left; reflexivity|].
      unfold QP.stale. cbn. apply Z.ltb_lt. assumption.
    + unfold QP.expire, QP.expire_payment. cbn.
      rewrite qp_two_listeners. left. reflexivity.
  - apply qp_has_false. intros Hin. apply in_map_iff in Hin.
    destruct Hin as [e [E He]]. apply filter_In in He.
    destruct He as [He Hfresh]. apply in_app_or in He.
    destruct He as [He|[<-|[]]].
    + apply qp_has_false in Hnew. apply Hnew. rewrite <- E.
      apply in_map. assumption.
    + unfold QP.stale in Hfresh. cbn in Hfresh.
      apply negb_true_iff, Z.ltb_ge in Hfresh. lia.
Qed.

(** X16: a cleanup pass removes exactly the stale entries. On a registry
    whose entries hold a query or a payment, the pass does not throw; the
    entries that stay are those updated at most 10000 ms before, in their
    order; every removed entry is reported once, in order, as a payment
    that timed out when it holds a payment (its cancellation is queued)
    and as a query that timed out otherwise; the emitters are left
    alone. *)
Theorem cleanup_removes_exactly_the_stale (now : Z) (st : QP.State) :
  (forall e, In e (QP.queries st) ->
             QP.pending_query e <> None \/ QP.pending_payment e <> None) ->
  let s := QP.cleanup now st in
  QP.thrown s = None
  /\ (forall e, In e (QP.queries (QP.after s))
                <-> In e (QP.queries st) /\ now - QP.updatedAt e <= 10000)
  /\ QP.queries (QP.after s)
     = filter (fun e => negb (QP.stale now e)) (QP.queries st)
  /\ QP.events s
     = flat_map (QP.expire (QP.listeners st))
                (filter (QP.stale now) (QP.queries st))
  /\ QP.listeners (QP.after s) = QP.listeners st.
Proof.
  intros Hqp. cbn zeta. unfold QP.cleanup.
  rewrite qp_sweep_filter by assumption.
  cbn [QP.thrown QP.events QP.after QP.queries QP.listeners].
  repeat split; try reflexivity.
  - apply filter_In in H. tauto.
  - apply filter_In in H. destruct H as [_ H].
    unfold QP.stale in H. apply negb_true_iff, Z.ltb_ge in H. lia.
  - intros [Hin Hfresh]. apply filter_In. split; [assumption|].
    unfold QP.stale. apply negb_true_iff, Z.ltb_ge. lia.
Qed.

End RegistryTheorems.

(** * Instances of the further properties that have premises *)

Lemma deployment_name_keeps_ten_characters_witness :
  deployment_name Mock.X = "indexer-agent/ymentHashX".
Proof.
  exact (proj1 (deployment_name_keeps_ten_characters Mock.X)
           "QmSomeOtherSubgraphDeplo" "ymentHashX" eq_refl eq_refl).
Defined.

Lemma toSettle_sound_and_complete_by_id_witness :
  has_allocation Mock.recent_twin
    (toSettle (resolve_plan Mock.SELF 100 28 [Mock.SELF] []
                 [Mock.old_a; Mock.old_b; Mock.recent_twin]))
  = false
  \/ has_allocation Mock.old_b
       (toSettle (resolve_plan Mock.SELF 100 28 [Mock.SELF] []
                    [Mock.old_a; Mock.old_b; Mock.recent_twin]))
     = true.
Proof.
  right.
  apply (proj2 (toSettle_sound_and_complete_by_id Mock.SELF 100 28
                  [Mock.SELF] [] [Mock.old_a; Mock.old_b; Mock.recent_twin])).
  - right. left. reflexivity.
  - left. unfold too_old. vm_compute. reflexivity.
Defined.

Lemma settled_deployments_are_not_allocated_witness :
  has_deployment (id (subgraphDeployment Mock.old_a))
    (toAllocate (resolve_plan Mock.SELF 100 28 [Mock.X; Mock.SELF] []
                              [Mock.old_a]))
  = false.
Proof.
  apply (settled_deployments_are_not_allocated Mock.SELF 100 28
           [Mock.X; Mock.SELF] [] [Mock.old_a] Mock.old_a).
  left. reflexivity.
Defined.

Lemma start_fails_only_during_startup_witness :
  exists issued rest polls,
    setup_calls Mock.SELF = (issued ++ rest)%list
    /\ calls (snd (start (indexer := Mock.indexer []) (network := Mock.network)
                         Mock.SELF 5
                         (Mock.start_world (Mock.state_with Mock.failed_status))))
       = (calls (Mock.start_world (Mock.state_with Mock.failed_status))
            ++ issued ++ repeat (CIndexingStatus Mock.SELF) polls)%list
    /\ unhandled
         (snd (start (indexer := Mock.indexer []) (network := Mock.network)
                     Mock.SELF 5
                     (Mock.start_world (Mock.state_with Mock.failed_status))))
       = unhandled (Mock.start_world (Mock.state_with Mock.failed_status)).
Proof.
  apply (start_fails_only_during_startup
           (indexer := Mock.indexer []) (network := Mock.network) Mock.SELF 5
           (Mock.start_world (Mock.state_with Mock.failed_status))
           (mkError "Failed to index network subgraph deployment '0x5e1f': X")).
  reflexivity.
Defined.

Lemma sample_registry_well_formed :
  QueryProcessor.well_formed Sample.one_payment.
Proof.
  repeat split.
  - cbn. repeat constructor. intros [].
  - intros e [<-|[]]. right. discriminate.
  - intros e [<-|[]]. cbn. lia.
Qed.

Lemma registry_stays_well_formed_witness :
  QueryProcessor.well_formed Sample.one_payment
  /\ QueryProcessor.well_formed
       (QueryProcessor.after
          (QueryProcessor.addPaidQuery Sample.every_channel 3 8 Sample.a_query
                                       Sample.one_payment))
  /\ QueryProcessor.thrown
       (QueryProcessor.cleanup 20000 Sample.one_payment)
     = None.
Proof.
  split; [exact sample_registry_well_formed|].
  pose proof (registry_stays_well_formed Sample.every_channel 3 8
                Sample.a_query Sample.a_channel Sample.a_payment
                Sample.one_payment sample_registry_well_formed) as H.
  split; [exact (proj1 H)|].
  exact (proj2 (proj2 (proj2 (proj2
           (registry_stays_well_formed Sample.every_channel 20000 8
              Sample.a_query Sample.a_channel Sample.a_payment
              Sample.one_payment sample_registry_well_formed))))).
Defined.

Lemma duplicate_query_refused_payment_replaced_witness :
  let waiting :=
    QueryProcessor.after
      (QueryProcessor.addPaidQuery Sample.no_channel 0 7 Sample.a_query
                                   QueryProcessor.empty) in
  QueryProcessor.thrown
    (QueryProcessor.addPaidQuery Sample.no_channel 1 8 Sample.a_query waiting)
  = Some (QueryProcessor.mkQueryError
            "Duplicate query for subgraph 'QmSubgraphA' and payment '0xpay1'"
            None).
Proof.
  cbn zeta.
  rewrite (proj1 (duplicate_query_refused_payment_replaced Sample.no_channel
                    1 8 Sample.a_query Sample.a_channel Sample.a_payment
                    (QueryProcessor.after
                       (QueryProcessor.addPaidQuery Sample.no_channel 0 7
                          Sample.a_query QueryProcessor.empty))
                    (QueryProcessor.mkPending "0xpay1" (Some Sample.a_query)
                                              None 0 0))
                 eq_refl).
  - reflexivity.
  - discriminate.
Defined.

Lemma query_and_payment_pair_up_witness :
  QueryProcessor.events
    (QueryProcessor.addPayment Sample.every_channel 4 8 Sample.a_channel
       Sample.a_payment
       (QueryProcessor.after
          (QueryProcessor.addPaidQuery Sample.every_channel 3 7 Sample.a_query
                                       QueryProcessor.empty)))
  = [QueryProcessor.Processing
       (QueryProcessor.mkPending "0xpay1" (Some Sample.a_query)
          (Some (QueryProcessor.mkSubgraphPayment Sample.a_payment
                                                  "QmSubgraphA"))
          4 0)].
Proof.
  exact (proj1 (proj2 (proj2 (proj2 (proj1
           (query_and_payment_pair_up Sample.every_channel 3 4 7 8
              Sample.a_query Sample.a_channel Sample.a_payment
              QueryProcessor.empty (QueryProcessor.mkStateChannel "QmSubgraphA")
              eq_refl eq_refl eq_refl)))))).
Defined.

Lemma unknown_subgraph_leaves_entry_pending_witness :
  In (QueryProcessor.Rejected [7%nat; 8%nat]
        (QueryProcessor.mkQueryError
           "Payment '0xpay1' timed out waiting for query" None))
     (QueryProcessor.events
        (QueryProcessor.cleanup 20000
           (QueryProcessor.after
              (QueryProcessor.addPayment Sample.no_channel 4 8 Sample.a_channel
                 Sample.a_payment
                 (QueryProcessor.after
                    (QueryProcessor.addPaidQuery Sample.no_channel 3 7
                       Sample.a_query QueryProcessor.empty)))))).
Proof.
  assert (Hwf : QueryProcessor.well_formed QueryProcessor.empty).
  { repeat split; [constructor|intros e []|intros e []]. }
  exact (proj1 (proj2 (proj2 (proj2 (proj2
           (unknown_subgraph_leaves_entry_pending Sample.no_channel 3 4 20000
              7 8 Sample.a_query Sample.a_channel Sample.a_payment
              QueryProcessor.empty Hwf eq_refl eq_refl eq_refl eq_refl)))))).
Defined.

Lemma cleanup_removes_exactly_the_stale_witness :
  QueryProcessor.queries
    (QueryProcessor.after
       (QueryProcessor.cleanup 20000 Sample.one_payment))
  = filter (fun e => negb (QueryProcessor.stale 20000 e))
           (QueryProcessor.queries Sample.one_payment).
Proof.
  apply (proj1 (proj2 (proj2
           (cleanup_removes_exactly_the_stale 20000
              Sample.one_payment
              (proj1 (proj2 sample_registry_well_formed)))))).
Defined.
